(** * supervised_depth_correction: KITTI loaders and depth-completion helpers

    A shallow embedding of the numeric and string-processing routines of
    [src/supervised_depth_correction/data.py] and
    [src/depth_completion/utils.py], together with the properties the
    specification states about them.

    Conventions.
    - Python [str] values are [string]s (ASCII content), Python [int]s are [Z].
    - Depth pixel values are [Z] (raw PNG values) and [Q] (metres): scaling a
      binary float by 256 is exact, so rationals follow the code exactly.
    - [float64] quantities that go through [sin], [cos], [sqrt], a matrix
      product or a matrix inverse are real numbers [R]: the rounding of the
      floating-point unit is left out of the model.
    - A Python exception is a constructor of [exn]; fallible code returns
      [result]. *)

From Stdlib Require Import ZArith List String Ascii Lia Reals Psatz QArith Qround.
From stdpp Require Import gmap strings.
Import ListNotations.

Local Open Scope Z_scope.

(** ** Exceptions and results *)

Inductive exn : Type :=
| AssertionError
| ValueError
| IndexError
| FileNotFoundError
| FileExistsError
| IsADirectoryError
| LinAlgError.

Inductive result (A : Type) : Type :=
| Ok (a : A)
| Raise (e : exn).
Arguments Ok {A} a.
Arguments Raise {A} e.

Definition bind {A B : Type} (r : result A) (k : A -> result B) : result B :=
  match r with
  | Ok a => k a
  | Raise e => Raise e
  end.

Notation "'let*' x ':=' r 'in' k" := (bind r (fun x => k))
  (at level 10, x pattern, r at level 100, k at level 200).

Fixpoint mapM {A B : Type} (f : A -> result B) (l : list A) : result (list B) :=
  match l with
  | [] => Ok []
  | a :: l' => let* b := f a in let* bs := mapM f l' in Ok (b :: bs)
  end.

Definition of_option {A : Type} (e : exn) (o : option A) : result A :=
  match o with
  | Some a => Ok a
  | None => Raise e
  end.

(** ** Python strings *)

Module Py.

(** [len(s)] *)
Definition len (s : string) : Z := Z.of_nat (String.length s).

Fixpoint take (n : nat) (s : string) : string :=
  match n, s with
  | S n', String c s' => String c (take n' s')
  | _, _ => EmptyString
  end.

Fixpoint drop (n : nat) (s : string) : string :=
  match n, s with
  | S n', String _ s' => drop n' s'
  | _, _ => s
  end.

(** A slice bound as Python resolves it: a negative bound counts from the
    end, and the result is clamped to [0, len(s)]. *)
Definition bound (s : string) (i : Z) : nat :=
  let i' := if i <? 0 then i + len s else i in
  Z.to_nat (Z.min (Z.max i' 0) (len s)).

(** [s[a:b]] *)
Definition slice (s : string) (a b : Z) : string :=
  let lo := bound s a in
  let hi := bound s b in
  take (hi - lo) (drop lo s).

(** [s[:b]] *)
Definition slice_to (s : string) (b : Z) : string := slice s 0 b.

(** [s[a:]] *)
Definition slice_from (s : string) (a : Z) : string := drop (bound s a) s.

(** [str(n)] for an [int] *)
Definition digit_char (d : Z) : ascii := ascii_of_nat (48 + Z.to_nat d).

Fixpoint digits_rec (fuel : nat) (n : Z) (acc : string) : string :=
  match fuel with
  | O => acc
  | S fuel' =>
      let acc' := String (digit_char (n mod 10)) acc in
      if n <? 10 then acc' else digits_rec fuel' (n / 10) acc'
  end.

Definition str_nonneg (n : Z) : string :=
  digits_rec (S (Z.to_nat (Z.log2 n))) n EmptyString.

Definition str_int (n : Z) : string :=
  if n <? 0 then String "-"%char (str_nonneg (- n)) else str_nonneg n.

(** [int(s)] on a string of decimal digits (no sign, no blanks) *)
Definition digit_val (c : ascii) : option Z :=
  let k := Z.of_nat (nat_of_ascii c) in
  if (48 <=? k) && (k <=? 57) then Some (k - 48) else None.

Fixpoint int_rec (s : string) (acc : Z) : option Z :=
  match s with
  | EmptyString => Some acc
  | String c s' =>
      match digit_val c with
      | Some d => int_rec s' (10 * acc + d)
      | None => None
      end
  end.

Definition int_of_str (s : string) : option Z :=
  match s with
  | EmptyString => None
  | _ => int_rec s 0
  end.

(** All characters of [s] are decimal digits. *)
Fixpoint all_digits (s : string) : bool :=
  match s with
  | EmptyString => true
  | String c s' =>
      match digit_val c with Some _ => all_digits s' | None => false end
  end.

(** The values [convert_img_label] and the [%] formats are applied to. *)
Inductive value : Type :=
| Int (n : Z)
| Str (s : string).

(** [str(v)] *)
Definition str (v : value) : string :=
  match v with
  | Int n => str_int n
  | Str s => s
  end.

(** [c * k] for a one-character string [c] *)
Fixpoint replicate (k : nat) (c : ascii) : string :=
  match k with
  | O => EmptyString
  | S k' => String c (replicate k' c)
  end.

(** [s.startswith(sub)] *)
Fixpoint startswith (sub s : string) : bool :=
  match sub, s with
  | EmptyString, _ => true
  | String a sub', String b s' => Ascii.eqb a b && startswith sub' s'
  | String _ _, EmptyString => false
  end.

(** [s.index(sub)]: the position of the first occurrence, [ValueError]
    when there is none *)
Fixpoint index (s sub : string) : result Z :=
  if startswith sub s then Ok 0
  else match s with
       | EmptyString => Raise ValueError
       | String _ s' => let* i := index s' sub in Ok (1 + i)
       end.

(** What [str.split()] takes for white space in ASCII text. *)
Definition is_space (c : ascii) : bool :=
  let k := nat_of_ascii c in
  ((9 <=? k) && (k <=? 13) || (28 <=? k) && (k <=? 32))%nat.

(** [s.split()]: the maximal runs without white space; [cur] is the run
    being read. *)
Fixpoint split_ws_from (cur s : string) : list string :=
  match s with
  | EmptyString => match cur with EmptyString => [] | _ => [cur] end
  | String c s' =>
      if is_space c
      then match cur with
           | EmptyString => split_ws_from EmptyString s'
           | _ => cur :: split_ws_from EmptyString s'
           end
      else split_ws_from (cur +:+ String c EmptyString) s'
  end.

Definition split_ws (s : string) : list string := split_ws_from EmptyString s.

(** [s.split(sep)] for a one-character separator *)
Fixpoint split_from (sep : ascii) (cur s : string) : list string :=
  match s with
  | EmptyString => [cur]
  | String c s' =>
      if Ascii.eqb c sep then cur :: split_from sep EmptyString s'
      else split_from sep (cur +:+ String c EmptyString) s'
  end.

Definition split (sep : ascii) (s : string) : list string :=
  split_from sep EmptyString s.

(** [s.replace(c, '')] for a one-character [c] *)
Fixpoint remove (c : ascii) (s : string) : string :=
  match s with
  | EmptyString => EmptyString
  | String a s' => if Ascii.eqb a c then remove c s' else String a (remove c s')
  end.

(** [c in s] *)
Fixpoint contains (c : ascii) (s : string) : bool :=
  match s with
  | EmptyString => false
  | String a s' => Ascii.eqb a c || contains c s'
  end.

(** The position of the first [c] in [s], when there is one. *)
Fixpoint find_char (c : ascii) (s : string) : option nat :=
  match s with
  | EmptyString => None
  | String a s' =>
      if Ascii.eqb a c then Some O
      else match find_char c s' with Some n => Some (S n) | None => None end
  end.

End Py.

(** ** Paths *)

(** [os.path.join(a, b)] on a POSIX system *)
Definition path_join2 (a b : string) : string :=
  match b with
  | String "/"%char _ => b
  | _ =>
      match a with
      | EmptyString => b
      | _ =>
          match Py.slice_from a (-1) with
          | String "/"%char EmptyString => (a +:+ b)%string
          | _ => (a +:+ "/" +:+ b)%string
          end
      end
  end.

(** [os.path.join(a, *ps)] *)
Definition path_join (a : string) (ps : list string) : string :=
  fold_left path_join2 ps a.

(** ** Arrays *)

(** An n-dimensional array as nested lists; [shape] reads the extents along
    the first element of every axis, as for a regular array. *)
#[warnings="-register-all"] Inductive nd (A : Type) : Type :=
| Sca (a : A)
| Arr (l : list (nd A)).
Arguments Sca {A} a.
Arguments Arr {A} l.

Fixpoint shape {A : Type} (t : nd A) : list nat :=
  match t with
  | Sca _ => []
  | Arr l =>
      List.length l ::
        match l with
        | [] => []
        | x :: _ => shape x
        end
  end.

Fixpoint nd_map {A B : Type} (f : A -> B) (t : nd A) : nd B :=
  match t with
  | Sca a => Sca (f a)
  | Arr l => Arr (map (nd_map f) l)
  end.

Definition nd_of_vec {A : Type} (v : list A) : nd A := Arr (map Sca v).
Definition nd_of_mat {A : Type} (m : list (list A)) : nd A := Arr (map nd_of_vec m).
Definition nd_of_cube {A : Type} (c : list (list (list A))) : nd A :=
  Arr (map nd_of_mat c).

(** [a[None]]: a new leading axis of extent 1 *)
Definition expand {A : Type} (t : nd A) : nd A := Arr [t].

(** [torch.squeeze(t, 0)]: drops the leading axis when its extent is 1 *)
Definition squeeze0 {A : Type} (t : nd A) : nd A :=
  match t with
  | Arr [x] => x
  | _ => t
  end.

(** [np.squeeze(a)]: drops every axis of extent 1 *)
Fixpoint squeeze {A : Type} (t : nd A) : nd A :=
  match t with
  | Sca a => Sca a
  | Arr l =>
      match l with
      | [x] => squeeze x
      | _ => Arr (map squeeze l)
      end
  end.

(** [k] consecutive chunks of [n] elements *)
Fixpoint chunks {A : Type} (k n : nat) (l : list A) : list (list A) :=
  match k with
  | O => []
  | S k' => firstn n l :: chunks k' n (skipn n l)
  end.

(** [a.reshape((r, c))] for the flattened content [flat] of [a] *)
Definition reshape2 {A : Type} (r c : nat) (flat : list A) : result (list (list A)) :=
  if Nat.eqb (List.length flat) (r * c) then Ok (chunks r c flat)
  else Raise ValueError.

(** [a.reshape([r, c, k])] *)
Definition reshape3 {A : Type} (r c k : nat) (flat : list A)
  : result (list (list (list A))) :=
  if Nat.eqb (List.length flat) (r * c * k)
  then Ok (chunks r c (chunks (r * c) k flat))
  else Raise ValueError.

(** The extents of a 2-d array given by its rows. *)
Definition nrows {A : Type} (m : list (list A)) : nat := List.length m.
Definition ncols {A : Type} (m : list (list A)) : nat :=
  match m with
  | [] => O
  | row :: _ => List.length row
  end.

(** [m] has [r] rows of [c] entries each. *)
Definition is_shape {A : Type} (r c : nat) (m : list (list A)) : Prop :=
  List.length m = r /\ Forall (fun row => List.length row = c) m.

Definition is_shapeb {A : Type} (r c : nat) (m : list (list A)) : bool :=
  Nat.eqb (List.length m) r && forallb (fun row => Nat.eqb (List.length row) c) m.

(** [cu] has shape [(r, c, k)]. *)
Definition is_shape3 {A : Type} (r c k : nat) (cu : list (list (list A))) : Prop :=
  List.length cu = r /\ Forall (is_shape c k) cu.

(** Every row of [m] has the extent of the first one. *)
Definition rectangular {A : Type} (m : list (list A)) : Prop :=
  is_shape (nrows m) (ncols m) m.

(** Pixel values a 16-bit PNG can hold. *)
Definition uint16_image (m : list (list Z)) : Prop :=
  Forall (Forall (fun v => 0 <= v <= 65535)) m.

(** ** Files *)

(** What the loaders read from disk, one view per reader:
    - [grey]: [np.array(Image.open(f), dtype=int)] of a single-channel PNG,
      as rows of pixel values;
    - [colour]: the same for an RGB PNG, shape (rows, cols, 3);
    - [numbers]: the flattened array [np.loadtxt(f)] reads;
    - [texts]: [open(f).read()].
    [dirs] are the directories. A path absent from a view raises
    [FileNotFoundError] in its reader. *)
Record disk : Type := Disk {
  grey : gmap string (list (list Z));
  colour : gmap string (list (list (list Z)));
  numbers : gmap string (list R);
  texts : gmap string string;
  dirs : gset string
}.

(** ['%010d' % i] *)
Definition fmt_010d (i : Z) : string :=
  if i <? 0
  then let ds := Py.str_nonneg (- i) in
       String "-"%char (Py.replicate (9 - String.length ds) "0"%char +:+ ds)
  else let ds := Py.str_nonneg i in
       (Py.replicate (10 - String.length ds) "0"%char +:+ ds)%string.

(** [np.max(a)] of a 2-d integer array; [ValueError] on an empty one *)
Definition np_max (a : list (list Z)) : result Z :=
  match concat a with
  | [] => Raise ValueError
  | x :: xs => Ok (fold_left Z.max xs x)
  end.

(** ** Operating-system calls

    Paths are compared as strings; the parent directory of a new entry is
    not looked up. *)

Definition is_file (d : disk) (p : string) : bool :=
  bool_decide (is_Some (grey d !! p)) || bool_decide (is_Some (colour d !! p))
  || bool_decide (is_Some (numbers d !! p)) || bool_decide (is_Some (texts d !! p)).

(** [os.path.isdir(p)] *)
Definition os_path_isdir (d : disk) (p : string) : bool :=
  bool_decide (p ∈ dirs d).

(** [os.path.exists(p)] *)
Definition os_path_exists (d : disk) (p : string) : bool :=
  is_file d p || os_path_isdir d p.

(** [os.mkdir(p)] *)
Definition os_mkdir (d : disk) (p : string) : result disk :=
  if os_path_exists d p then Raise FileExistsError
  else Ok {| grey := grey d; colour := colour d; numbers := numbers d;
             texts := texts d; dirs := {[ p ]} ∪ dirs d |}.

(** [os.remove(p)] *)
Definition os_remove (d : disk) (p : string) : result disk :=
  if os_path_isdir d p then Raise IsADirectoryError
  else if is_file d p
       then Ok {| grey := delete p (grey d); colour := delete p (colour d);
                  numbers := delete p (numbers d); texts := delete p (texts d);
                  dirs := dirs d |}
       else Raise FileNotFoundError.

(** [Image.save(p)] of a single-channel image: the path then reads back as
    that image. *)
Definition image_save (d : disk) (p : string) (img : list (list Z)) : result disk :=
  if os_path_isdir d p then Raise IsADirectoryError
  else Ok {| grey := <[ p := img ]> (grey d); colour := delete p (colour d);
             numbers := delete p (numbers d); texts := delete p (texts d);
             dirs := dirs d |}.

(** ** Number literals and matrices *)

Section Numbers.
Local Open Scope R_scope.

(** A leading sign, as [ast.literal_eval] accepts one on a number. *)
Definition signed (s : string) : bool * string :=
  match s with
  | String "-"%char r => (true, r)
  | String "+"%char r => (false, r)
  | _ => (false, s)
  end.

(** The exponent part of a float literal: an optional sign and digits. *)
Definition exponent (e : option string) : option Z :=
  match e with
  | None => Some 0%Z
  | Some e =>
      let '(neg, ds) := signed e in
      match Py.int_of_str ds with
      | Some k => Some (if neg then (- k)%Z else k)
      | None => None
      end
  end.

(** An integer literal of several digits may not start with [0] unless it
    is all zeros. *)
Definition plain_int_ok (ds : string) : bool :=
  match ds with
  | String "0"%char (String _ _ as r) => String.eqb (Py.remove "0"%char r) ""
  | _ => true
  end.

(** [ast.literal_eval(tok)] on a decimal number token such as [7.5],
    [-4.069766e-03] or [12], read as the real number it denotes. Other
    Python literals are not numbers of a calibration file and are rejected. *)
Definition literal_eval (tok : string) : option R :=
  let '(neg, body) := signed tok in
  let '(mant, expo) :=
    match Py.find_char "e"%char body, Py.find_char "E"%char body with
    | Some n, Some m =>
        let k := Nat.min n m in (Py.take k body, Some (Py.drop (S k) body))
    | Some n, None | None, Some n => (Py.take n body, Some (Py.drop (S n) body))
    | None, None => (body, None)
    end in
  let '(ip, fp, dotted) :=
    match Py.find_char "."%char mant with
    | Some n => (Py.take n mant, Py.drop (S n) mant, true)
    | None => (mant, EmptyString, false)
    end in
  let ds := (ip +:+ fp)%string in
  let plain := negb dotted && match expo with None => true | Some _ => false end in
  match exponent expo, Py.int_of_str ds with
  | Some e, Some m =>
      if Py.all_digits ds && (negb plain || plain_int_ok ds)
      then let x := IZR m * powerRZ 10 (e - Z.of_nat (String.length fp)) in
           Some (if neg then - x else x)
      else None
  | _, _ => None
  end.

Definition mat : Type := list (list R).

Fixpoint dot (u v : list R) : R :=
  match u, v with
  | x :: u', y :: v' => x * y + dot u' v'
  | _, _ => 0
  end.

(** Column [j] of [m] *)
Definition col (j : nat) (m : mat) : list R := map (fun row => nth j row 0) m.

(** The matrix product of [a] and [b] *)
Definition mul (a b : mat) : mat :=
  map (fun row => map (fun j => dot row (col j b)) (seq 0 (ncols b))) a.

(** [np.matmul(a, b)] on 2-d arrays: [ValueError] unless the columns of [a]
    match the rows of [b] *)
Definition np_matmul (a b : mat) : result mat :=
  if is_shapeb (nrows a) (nrows b) a && is_shapeb (nrows b) (ncols b) b
  then Ok (mul a b)
  else Raise ValueError.

(** [np.eye(n)] *)
Definition eye (n : nat) : mat :=
  map (fun i => map (fun j => if Nat.eqb i j then 1 else 0) (seq 0 n)) (seq 0 n).

(** [m] applied to the column vector [v] *)
Definition apply (m : mat) (v : list R) : list R := map (fun row => dot row v) m.

(** [np.mat(data)] for a string: brackets are dropped, [;] separates rows,
    [,] and white space separate entries; all rows must have one length. *)
Definition np_mat (data : string) : result mat :=
  let data := Py.remove "]"%char (Py.remove "["%char data) in
  let rows := Py.split ";"%char data in
  let* newdata :=
    mapM (fun row =>
            mapM (fun tok => of_option ValueError (literal_eval tok))
                 (concat (map Py.split_ws (Py.split ","%char row))))
         rows in
  if forallb (fun row => Nat.eqb (List.length row) (ncols newdata)) newdata
  then Ok newdata
  else Raise ValueError.

(** [np.bmat([[rotation, translation], [[[0, 0, 0, 1]]]])] *)
Fixpoint hstack (a b : mat) : result mat :=
  match a, b with
  | [], [] => Ok []
  | ra :: a', rb :: b' => let* rest := hstack a' b' in Ok ((ra ++ rb) :: rest)
  | _, _ => Raise ValueError
  end.

Definition bmat_rt (rotation translation : mat) : result mat :=
  let* top := hstack rotation translation in
  if is_shapeb (nrows top) 4 top then Ok (top ++ [[0; 0; 0; 1]])
  else Raise ValueError.

(** [KITTIRawPoses.load_calib_file(file)] *)
Definition load_calib_file (d : disk) (path file : string) : result mat :=
  let fpath := path_join2 path file in
  let* s := of_option FileNotFoundError (texts d !! fpath) in
  let* i_r := Py.index s "R:" in
  let* i_t := Py.index s "T:" in
  let* nl := Py.index (Py.slice_from s (i_t + 2)) (String "010"%char EmptyString) in
  let i_t_end := (i_t + 2 + nl)%Z in
  let* r := np_mat (Py.slice s (i_r + 2) i_t) in
  let* rotation := reshape2 3 3 (concat r) in
  let* t := np_mat (Py.slice s (i_t + 2) i_t_end) in
  let* translation := reshape2 3 1 (concat t) in
  let* transform := bmat_rt rotation translation in
  if is_shapeb 4 4 transform then Ok transform else Raise AssertionError.

(** [KITTIRawPoses.get_calibrations()] *)
Definition get_calibrations (d : disk) (path : string) : result mat :=
  let* TrImuToVelo := load_calib_file d path "calib_imu_to_velo.txt" in
  let* TrVeloToCam := load_calib_file d path "calib_velo_to_cam.txt" in
  let* TrImuToCam0 := np_matmul TrImuToVelo TrVeloToCam in
  Ok TrImuToCam0.

End Numbers.

(** ** supervised_depth_correction/data.py: KITTIRawPoses *)

Section Ecef.
Local Open Scope R_scope.

(** [KITTIRawPoses.gps_to_ecef(lat, lon, alt)] on scalars, as
    [get_gps_pose] calls it ([zero_origin] left at [False]). *)
Definition gps_to_ecef (lat lon alt : R) : R * R * R :=
  let rad_lat := lat * (PI / 180) in
  let rad_lon := lon * (PI / 180) in
  let a := 6378137 in
  let finv := 298257223563 / 1000000000 in
  let f := 1 / finv in
  let e2 := 1 - (1 - f) * (1 - f) in
  let v := a / sqrt (1 - e2 * sin rad_lat * sin rad_lat) in
  let x := (v + alt) * cos rad_lat * cos rad_lon in
  let y := (v + alt) * cos rad_lat * sin rad_lon in
  let z := alt in
  (x, y, z).

(** [x - x[0]] for an array [x]; [IndexError] when it is empty *)
Definition minus_first (x : list R) : result (list R) :=
  match x with
  | [] => Raise IndexError
  | x0 :: _ => Ok (map (fun xi => xi - x0) x)
  end.

(** [gps_to_ecef] on arrays of equal length, with its [zero_origin] flag. *)
Definition gps_to_ecef_arrays (lat lon alt : list R) (zero_origin : bool)
  : result (list R * list R * list R) :=
  if negb (Nat.eqb (List.length lat) (List.length lon)
           && Nat.eqb (List.length lat) (List.length alt))
  then Raise ValueError
  else
    let pts := map (fun '(la, lo, al) => gps_to_ecef la lo al)
                   (combine (combine lat lon) alt) in
    let x := map (fun p => fst (fst p)) pts in
    let y := map (fun p => snd (fst p)) pts in
    let z := map snd pts in
    if zero_origin
    then let* x' := minus_first x in
         let* y' := minus_first y in
         let* z' := minus_first z in
         Ok (x', y', z')
    else Ok (x, y, z).

End Ecef.

Section Poses.
Local Open Scope R_scope.

(** [l] without its entry [j] *)
Fixpoint del {A : Type} (j : nat) (l : list A) : list A :=
  match j, l with
  | O, _ :: l' => l'
  | S j', x :: l' => x :: del j' l'
  | _, [] => []
  end.

Fixpoint sum_upto (f : nat -> R) (n : nat) : R :=
  match n with
  | O => 0
  | S n' => sum_upto f n' + f n'
  end.

(** The determinant of an n x n matrix, expanded along its first row. *)
Fixpoint det (n : nat) (m : mat) : R :=
  match n with
  | O => 1
  | S n' =>
      match m with
      | [] => 0
      | row :: rest =>
          sum_upto (fun j => (-1) ^ j * nth j row 0 * det n' (map (del j) rest)) n
      end
  end.

(** The transposed matrix of cofactors. *)
Definition adjugate (n : nat) (m : mat) : mat :=
  map (fun i =>
         map (fun j => (-1) ^ (i + j) * det (n - 1) (map (del i) (del j m)))
             (seq 0 n))
      (seq 0 n).

(** [np.linalg.inv(m)]: the inverse of a square matrix, written by
    cofactors; [LinAlgError] when [m] is not square or is singular. *)
Definition np_linalg_inv (m : mat) : result mat :=
  let n := nrows m in
  if negb (is_shapeb n n m) then Raise LinAlgError
  else if Req_EM_T (det n m) 0 then Raise LinAlgError
       else Ok (map (map (fun c => c / det n m)) (adjugate n m)).

(** [Rotation.from_euler('xyz', [roll, pitch, yaw]).as_matrix()]: the
    rotations about the fixed axes x, y, z, applied in that order (SciPy's
    lower-case axis sequences are extrinsic). *)
Definition rot_x (t : R) : mat := [[1; 0; 0]; [0; cos t; - sin t]; [0; sin t; cos t]].
Definition rot_y (t : R) : mat := [[cos t; 0; sin t]; [0; 1; 0]; [- sin t; 0; cos t]].
Definition rot_z (t : R) : mat := [[cos t; - sin t; 0]; [sin t; cos t; 0]; [0; 0; 1]].

Definition from_euler_xyz (roll pitch yaw : R) : mat :=
  mul (rot_z yaw) (mul (rot_y pitch) (rot_x roll)).

(** [KITTIRawPoses.get_gps_pose(fname)], on the array [gps_data] that
    [np.genfromtxt(fname)] reads. *)
Definition get_gps_pose (gps_data : list R) : result mat :=
  match gps_data with
  | lat :: lon :: alt :: roll :: pitch :: yaw :: _ =>
      let R := from_euler_xyz roll pitch yaw in
      let '(x, y, z) := gps_to_ecef lat lon alt in
      (* pose = np.eye(4); pose[:3, :3] = R; pose[:3, 3] = [x, y, z] *)
      let* top := hstack R [[x]; [y]; [z]] in
      Ok (top ++ [[0; 0; 0; 1]])
  | _ => Raise ValueError
  end.

(** [KITTIRawPoses.get_cam_poses(zero_origin)]; [oxts] holds the arrays read
    from the files of [oxts/data], in sorted order. *)
Definition get_cam_poses (oxts : list (list R)) (gps2cam_transform : mat)
    (zero_origin : bool) : result (list mat) :=
  let* poses := mapM get_gps_pose oxts in
  let* poses :=
    match poses with
    | [] => Raise ValueError
    | _ => mapM (fun pose => np_matmul pose gps2cam_transform) poses
    end in
  if zero_origin
  then
    let* first := of_option IndexError (poses !! 0%nat) in
    let* Tr_inv := np_linalg_inv first in
    mapM (fun pose => np_matmul Tr_inv pose) poses
  else Ok poses.

(** The transform from frame [b] to frame [a]: [inv(a) * b]. *)
Definition relative_pose (a b : mat) : result mat :=
  let* a_inv := np_linalg_inv a in
  np_matmul a_inv b.

End Poses.

(** ** supervised_depth_correction/data.py: KITTIDepthSelection *)

Record KITTIDepthSelection : Type := {
  sel_path : string;
  sel_subseq : string;
  sel_image : string;
  sel_ids : list Z
}.

(** What [get_depth] returns: the raw integer array, or metres when
    [to_depth_map] is set; both of shape (rows, cols, 1). *)
Inductive depth_array : Type :=
| RawDepth (a : list (list (list Z)))
| Metres (a : list (list (list Q))).

(** [depth.astype(np.float) / 256.] at one pixel *)
Definition depth_scale (v : Z) : Q := (inject_Z v / 256)%Q.

(** [depth[depth == 0] = -1.] at one pixel *)
Definition mark_invalid (q : Q) : Q := if Qeq_bool q 0 then (-1)%Q else q.

Definition depth_file (self : KITTIDepthSelection) (i : Z) (gt : bool) : string :=
  let depth_label := if gt then "groundtruth_depth"%string else "velodyne_raw"%string in
  path_join (sel_path self)
    [depth_label;
     (sel_subseq self +:+ "_" +:+ depth_label +:+ "_" +:+ fmt_010d i +:+ "_"
        +:+ sel_image self +:+ ".png")%string].

(** The part of [get_depth] after the image is loaded. *)
Definition get_depth_of (depth : list (list Z)) (to_depth_map : bool)
  : result depth_array :=
  let r := nrows depth in
  let c := ncols depth in
  let* m := np_max depth in
  if negb (255 <? m) then Raise AssertionError
  else if to_depth_map
       then let scaled := map (fun v => mark_invalid (depth_scale v)) (concat depth) in
            let* a := reshape3 r c 1 scaled in Ok (Metres a)
       else let* a := reshape3 r c 1 (concat depth) in Ok (RawDepth a).

(** [KITTIDepthSelection.get_depth(i, gt, to_depth_map)] *)
Definition get_depth (d : disk) (self : KITTIDepthSelection) (i : Z)
    (gt to_depth_map : bool) : result depth_array :=
  let* depth := of_option FileNotFoundError (grey d !! depth_file self i gt) in
  get_depth_of depth to_depth_map.

Definition rgb_file (self : KITTIDepthSelection) (i : Z) : string :=
  path_join (sel_path self)
    ["image"%string;
     (sel_subseq self +:+ "_image_" +:+ fmt_010d i +:+ "_" +:+ sel_image self
        +:+ ".png")%string].

Definition intrinsics_file (self : KITTIDepthSelection) (i : Z) : string :=
  path_join (sel_path self)
    ["intrinsics"%string;
     (sel_subseq self +:+ "_image_" +:+ fmt_010d i +:+ "_" +:+ sel_image self
        +:+ ".txt")%string].

(** [KITTIDepthSelection.get_rgb(i)] *)
Definition get_rgb (d : disk) (self : KITTIDepthSelection) (i : Z)
  : result (list (list (list Z))) :=
  of_option FileNotFoundError (colour d !! rgb_file self i).

(** [KITTIDepthSelection.get_intrinsics(i)] *)
Definition get_intrinsics (d : disk) (self : KITTIDepthSelection) (i : Z)
  : result (list (list R)) :=
  let* flat := of_option FileNotFoundError (numbers d !! intrinsics_file self i) in
  reshape2 3 3 flat.

(** [i in ids] *)
Definition mem (i : Z) (ids : list Z) : bool := existsb (Z.eqb i) ids.

(** [KITTIDepthSelection.__getitem__(i)] *)
Definition KITTIDepthSelection_getitem (d : disk) (self : KITTIDepthSelection) (i : Z)
  : result (list (list (list Z)) * depth_array * list (list R)) :=
  if negb (mem i (sel_ids self)) then Raise AssertionError
  else
    let* intrins := get_intrinsics d self i in
    let* rgb := get_rgb d self i in
    let* depth := get_depth d self i true false in
    Ok (rgb, depth, intrins).

(** ** supervised_depth_correction/data.py: Dataset *)

Section DatasetDefs.
Local Open Scope R_scope.

Record KITTIRawPoses : Type := {
  raw_path : string;
  raw_subseq : string;
  gps2cam_transform : mat;
  raw_poses : list mat;
  raw_ts : list R
}.

(** [KITTIRawPoses.__getitem__(i)], with [ids = range(len(ts))] *)
Definition KITTIRawPoses_getitem (self : KITTIRawPoses) (i : Z) : result mat :=
  if negb ((0 <=? i)%Z && (i <? Z.of_nat (List.length (raw_ts self)))%Z)
  then Raise AssertionError
  else of_option IndexError (raw_poses self !! Z.to_nat i).

(** The data.py [Dataset]; its [ids] are those of the depth selection. *)
Record Dataset : Type := {
  ds_poses : KITTIRawPoses;
  ds_depths : KITTIDepthSelection
}.

Definition Dataset_ids (self : Dataset) : list Z := sel_ids (ds_depths self).

Inductive torch_dtype : Type := float32 | float64 | int64 | uint8.

(** A tensor: its element type and its entries, read as real numbers (the
    rounding to the element type is left out). *)
Record tensor : Type := {
  dtype : torch_dtype;
  data : nd R
}.

(** [torch.as_tensor(a, dtype=dt)] *)
Definition as_tensor (dt : torch_dtype) (a : nd R) : tensor :=
  {| dtype := dt; data := a |}.

Definition nd_of_depth (a : depth_array) : nd R :=
  match a with
  | RawDepth a => nd_map IZR (nd_of_cube a)
  | Metres a => nd_map Q2R (nd_of_cube a)
  end.

(** [base[:3, :3] = K] for a 3x3 array [K] *)
Definition set_block33 (base K : mat) : result mat :=
  if is_shapeb 3 3 K
  then Ok (map (fun i =>
                  map (fun j =>
                         if (i <? 3)%nat && (j <? 3)%nat
                         then nth j (nth i K []) 0
                         else nth j (nth i base []) 0)
                      (seq 0 (ncols base)))
               (seq 0 (nrows base)))
  else Raise ValueError.

(** [Dataset.__getitem__(item)] *)
Definition Dataset_getitem (d : disk) (self : Dataset) (item : Z)
  : result (list tensor) :=
  if negb (mem item (Dataset_ids self)) then Raise AssertionError
  else
    let* (colors, depths, K) := KITTIDepthSelection_getitem d (ds_depths self) item in
    let* poses := KITTIRawPoses_getitem (ds_poses self) item in
    let* intrinsics := set_block33 (eye 4) K in
    let data := [nd_map IZR (nd_of_cube colors); nd_of_depth depths;
                 nd_of_mat intrinsics; nd_of_mat poses] in
    Ok (map (fun a => as_tensor float32 (expand (expand a))) data).

(** [K] sits in the top-left block of [m], which is the identity elsewhere. *)
Definition embeds (K m : mat) : Prop :=
  forall i j : nat, (i < 4)%nat -> (j < 4)%nat ->
    nth j (nth i m []) 0 =
      if (i <? 3)%nat && (j <? 3)%nat then nth j (nth i K []) 0
      else if Nat.eqb i j then 1 else 0.

End DatasetDefs.

(** ** depth_completion/utils.py *)

(** [convert_img_label(name)] *)
Definition convert_img_label (name : Py.value) : string :=
  let default := "0000000000"%string in
  let name := Py.str name in
  (Py.slice_to default (- Py.len name) +:+ name)%string.

(** [a.astype(np.uint16)] at one entry: the fraction is dropped. Outside
    [0, 65536) the conversion is left to the platform; the usual wrap-around
    is taken here, and no property below depends on it. *)
Definition astype_uint16 (q : Q) : Z :=
  (Z.quot (Qnum q) (Z.pos (Qden q))) mod 65536.

Definition entries {A : Type} (t : nd A) : result (list A) :=
  match t with
  | Arr l => mapM (fun x => match x with Sca a => Ok a | Arr _ => Raise ValueError end) l
  | Sca _ => Raise ValueError
  end.

(** [Image.fromarray(a, mode='I;16')]: a 2-d array gives its rows, a 1-d
    array a single column. With more axes Pillow reads a prefix of the
    buffer; that lies outside the (B, S, H, W, CH) layout with
    B = S = CH = 1 and is rejected here. *)
Definition fromarray (a : nd Z) : result (list (list Z)) :=
  match a with
  | Sca _ => Raise IndexError
  | Arr l =>
      match l with
      | [] => Raise ValueError
      | Sca _ :: _ => let* v := entries a in Ok (map (fun x => [x]) v)
      | Arr _ :: _ => mapM entries l
      end
  end.

(** The pixel values [save_gradslam_image] writes for the tensor [img]. *)
Definition gradslam_pixels (img : nd Q) : result (list (list Z)) :=
  let img := squeeze0 img in
  let img := squeeze0 img in
  let img := nd_map (fun x => (x * 256)%Q) img in
  fromarray (squeeze (nd_map astype_uint16 img)).

(** [save_gradslam_image(img, img_path)] *)
Definition save_gradslam_image (d : disk) (img : nd Q) (img_path : string)
  : result disk :=
  let* data_pil := gradslam_pixels img in
  image_save d img_path data_pil.

(** What [complete_sequence] uses of its [dataset] argument: [len(dataset)],
    [dataset.ids] and [dataset[i]] = (colors, depths, intrinsics, poses). *)
Record dataset : Type := {
  ds_len : nat;
  ds_ids : list Py.value;
  ds_item : nat -> result (nd Q * nd Q * nd Q * nd Q)
}.

(** The files, and the calls made to the network so far, each with its two
    arguments. *)
Record world : Type := World {
  files : disk;
  calls : list (nd Q * nd Q)
}.

(** [(depths > 0).float()] *)
Definition validity_mask (depths : nd Q) : nd Q :=
  nd_map (fun x => if Qlt_le_dec 0%Q x then 1%Q else 0%Q) depths.

(** The target of item [i]: [os.path.join(path_to_save, img_name)] *)
Definition img_path_of (ds : dataset) (path_to_save : string) (i : nat)
  : result string :=
  let* id := of_option IndexError (ds_ids ds !! i) in
  Ok (path_join2 path_to_save (convert_img_label id +:+ ".png")).

(** One turn of the loop over the items of [complete_sequence]. *)
Definition complete_item (model : nd Q -> nd Q -> result (nd Q)) (ds : dataset)
    (path_to_save : string) (replace : bool) (w : world) (i : nat) : result world :=
  let* img_path := img_path_of ds path_to_save i in
  if os_path_exists (files w) img_path && negb replace then Ok w
  else
    let* d := (if os_path_exists (files w) img_path && replace
               then os_remove (files w) img_path else Ok (files w)) in
    let* (colors, depths, intrinsics, poses) := ds_item ds i in
    let mask := validity_mask depths in
    let* pred := model depths mask in
    let calls' := calls w ++ [(depths, mask)] in
    let* d' := save_gradslam_image d pred img_path in
    Ok {| files := d'; calls := calls' |}.

(** The loop over the sub-folders: each is joined to the path and created
    when it is not a directory yet. *)
Fixpoint make_folders (d : disk) (path_to_save : string) (subfolders : list string)
  : result (disk * string) :=
  match subfolders with
  | [] => Ok (d, path_to_save)
  | subfold :: rest =>
      let path_to_save := path_join2 path_to_save subfold in
      let* d := (if os_path_isdir d path_to_save then Ok d
                 else os_mkdir d path_to_save) in
      make_folders d path_to_save rest
  end.

Fixpoint for_each {S : Type} (body : S -> nat -> result S) (s : S) (l : list nat)
  : result S :=
  match l with
  | [] => Ok s
  | i :: rest => let* s := body s i in for_each body s rest
  end.

(** [complete_sequence(model, dataset, path_to_save, subseq, camera, replace)] *)
Definition complete_sequence (model : nd Q -> nd Q -> result (nd Q)) (ds : dataset)
    (path_to_save subseq camera : string) (replace : bool) (w : world)
  : result world :=
  let image_folder :=
    if String.eqb camera "left" then "image_02"%string else "image_03"%string in
  let subfolders := [subseq; "proj_depth"%string; "prediction"%string; image_folder] in
  let* (d, path_to_save) := make_folders (files w) path_to_save subfolders in
  for_each (complete_item model ds path_to_save replace)
    {| files := d; calls := calls w |} (seq 0 (ds_len ds)).

(** The tensor of shape (1, 1, H, W, 1) that holds the depth map [dm]. *)
Definition depth_tensor (dm : list (list Q)) : nd Q :=
  expand (expand (nd_of_cube (map (map (fun x => [x])) dm))).

(** [img * 2**8] cast to [uint16] at one entry *)
Definition encode_depth (q : Q) : Z := astype_uint16 (q * 256).

(** ** Reference formulas *)

(** The WGS84 ellipsoid and the geodetic-to-ECEF formulas, as the
    specification writes them (angles in radians). *)
Module WGS84.
Local Open Scope R_scope.

Definition a : R := 6378137.
Definition f : R := 1 / (298257223563 / 1000000000).
Definition e2 : R := 1 - (1 - f) ^ 2.
Definition v (lat : R) : R := a / sqrt (1 - e2 * (sin lat) ^ 2).
Definition x (lat lon alt : R) : R := (v lat + alt) * cos lat * cos lon.
Definition y (lat lon alt : R) : R := (v lat + alt) * cos lat * sin lon.
Definition z (lat lon alt : R) : R := (v lat * (1 - e2) + alt) * sin lat.
Definition radians (deg : R) : R := deg * (PI / 180).

End WGS84.

(** [txt] is a run of number literals separated by white space, with values
    [vals]: what a line of a calibration file holds after its marker. *)
Definition number_row (txt : string) (vals : list R) : Prop :=
  Py.contains "["%char txt = false /\ Py.contains "]"%char txt = false /\
  Py.contains ";"%char txt = false /\ Py.contains ","%char txt = false /\
  mapM (fun tok => of_option ValueError (literal_eval tok)) (Py.split_ws txt)
    = Ok vals.

Definition newline : string := String "010"%char EmptyString.

(** ** Sample inputs *)

(** A depth store with one ground-truth image whose depths are all below one
    metre. *)
Definition near_selection : KITTIDepthSelection :=
  {| sel_path := "/kitti"; sel_subseq := "drive"; sel_image := "image_02";
     sel_ids := [0] |}.

Definition near_disk : disk :=
  {| grey := {[ depth_file near_selection 0 true := [[100; 0]; [255; 17]] ]};
     colour := ∅; numbers := ∅; texts := ∅; dirs := ∅ |}.

(** A depth store with one ground-truth image that has depths beyond one
    metre. *)
Definition far_selection : KITTIDepthSelection :=
  {| sel_path := "/kitti"; sel_subseq := "drive"; sel_image := "image_02";
     sel_ids := [7] |}.

Definition far_disk : disk :=
  {| grey := {[ depth_file far_selection 7 true := [[0; 256]; [512; 300]] ]};
     colour := ∅; numbers := ∅; texts := ∅; dirs := ∅ |}.

(** A disk with nothing on it. *)
Definition empty_disk : disk :=
  {| grey := ∅; colour := ∅; numbers := ∅; texts := ∅; dirs := ∅ |}.

(** A stand-in for the network that returns its sparse input, a dataset of
    two frames with ids 5 and 6, and a world where the prediction for
    frame 5 is already on disk. *)
Definition echo_model (depths mask : nd Q) : result (nd Q) := Ok depths.

Definition two_frames : dataset :=
  {| ds_len := 2;
     ds_ids := [Py.Int 5; Py.Int 6];
     ds_item := fun _ =>
       Ok (Sca 0%Q, depth_tensor [[1 # 1; 0 # 1]; [3 # 2; 4 # 1]]%Q, Sca 0%Q, Sca 0%Q) |}.

Definition half_done : world :=
  {| files := {| grey := {[ "out/0000000005.png"%string := [[7; 7]; [7; 7]] ]};
                 colour := ∅; numbers := ∅; texts := ∅;
                 dirs := {[ "out"%string ]} |};
     calls := [] |}.

(** A calibration text that ends right after the three numbers of [T:]. *)
Definition calib_unterminated : string :=
  ("R: 1 0 0 0 1 0 0 0 1" +:+ newline +:+ "T: 0 0 0")%string.

Definition calib_unterminated_disk : disk :=
  {| grey := ∅; colour := ∅; numbers := ∅;
     texts := {[ "/kitti/calib.txt"%string := calib_unterminated ]}; dirs := ∅ |}.

(** A calibration text in the layout of the KITTI files. *)
Definition calib_sample : string :=
  ("calib_time: 25-May-2012 16:47:16" +:+ newline +:+
   "R: 1 0 0 0 1 0 0 0 1" +:+ newline +:+
   "T: 0.5 -2 3e0" +:+ newline +:+
   "delta_f: 0.000000e+00 0.000000e+00" +:+ newline)%string.

Definition calib_sample_disk : disk :=
  {| grey := ∅; colour := ∅; numbers := ∅;
     texts := {[ "/kitti/calib.txt"%string := calib_sample ]}; dirs := ∅ |}.

(** Calibration files of a rig whose lidar frame is the IMU frame turned by
    a quarter turn about the vertical axis, and whose camera sits one metre
    along the first axis of the lidar. *)
Definition rig_disk : disk :=
  {| grey := ∅; colour := ∅; numbers := ∅;
     texts :=
       {[ "/kitti/calib_imu_to_velo.txt"%string :=
            ("R: 0 -1 0 1 0 0 0 0 1" +:+ newline +:+ "T: 0 0 0" +:+ newline)%string;
          "/kitti/calib_velo_to_cam.txt"%string :=
            ("R: 1 0 0 0 1 0 0 0 1" +:+ newline +:+ "T: 1 0 0" +:+ newline)%string ]};
     dirs := ∅ |}.

Definition rig_imu_to_velo : mat :=
  [[0; -1; 0; 0]; [1; 0; 0; 0]; [0; 0; 1; 0]; [0; 0; 0; 1]]%R.

Definition rig_velo_to_cam : mat :=
  [[1; 0; 0; 1]; [0; 1; 0; 0]; [0; 0; 1; 0]; [0; 0; 0; 1]]%R.

(** Two GPS records (lat, lon, alt, roll, pitch, yaw): the second one five
    metres above the first. *)
Definition two_records : list (list R) :=
  [[0; 0; 0; 0; 0; 0]; [0; 0; 5; 0; 0; 0]]%R.

(** A data set with the single frame 0 and the identity as its pose. *)
Definition single_frame : Dataset :=
  {| ds_poses := {| raw_path := "/kitti_raw"; raw_subseq := "drive";
                    gps2cam_transform := eye 4; raw_poses := [eye 4];
                    raw_ts := [0%R] |};
     ds_depths := near_selection |}.

(** Its files, with ground-truth depths that are all below one metre. *)
Definition near_dataset_disk : disk :=
  {| grey := {[ depth_file near_selection 0 true := [[100; 0]; [255; 17]] ]};
     colour := {[ rgb_file near_selection 0 :=
                    [[[1; 2; 3]; [4; 5; 6]]; [[7; 8; 9]; [10; 11; 12]]] ]};
     numbers := {[ intrinsics_file near_selection 0 :=
                     [721; 0; 609; 0; 721; 172; 0; 0; 1]%R ]};
     texts := ∅; dirs := ∅ |}.

(** The same files with depths beyond one metre. *)
Definition far_dataset_disk : disk :=
  {| grey := {[ depth_file near_selection 0 true := [[0; 256]; [512; 300]] ]};
     colour := {[ rgb_file near_selection 0 :=
                    [[[1; 2; 3]; [4; 5; 6]]; [[7; 8; 9]; [10; 11; 12]]] ]};
     numbers := {[ intrinsics_file near_selection 0 :=
                     [721; 0; 609; 0; 721; 172; 0; 0; 1]%R ]};
     texts := ∅; dirs := ∅ |}.

(** A depth store whose one image has no invalid pixel. *)
Definition dense_disk : disk :=
  {| grey := {[ depth_file near_selection 0 true := [[300; 1]; [256; 65535]] ]};
     colour := ∅; numbers := ∅; texts := ∅; dirs := ∅ |}.

(** ** Further functions of data.py *)

(** [s.lstrip()] and [s.rstrip()] *)
Fixpoint lstrip (s : string) : string :=
  match s with
  | EmptyString => EmptyString
  | String c s' => if Py.is_space c then lstrip s' else s
  end.

Fixpoint rstrip (s : string) : string :=
  match s with
  | EmptyString => EmptyString
  | String c s' =>
      match rstrip s' with
      | EmptyString => if Py.is_space c then EmptyString else String c EmptyString
      | r => String c r
      end
  end.

(** Decimal digits, single underscores allowed between them; [prev] tells
    whether the character before was a digit. *)
Fixpoint grouped_digits (s : string) (prev : bool) (acc : Z) : option Z :=
  match s with
  | EmptyString => if prev then Some acc else None
  | String c s' =>
      match Py.digit_val c with
      | Some dgt => grouped_digits s' true (10 * acc + dgt)
      | None =>
          if Ascii.eqb c "_"%char && prev then grouped_digits s' false acc
          else None
      end
  end.

(** [int(s)] for a string: blanks around, one sign, digits in groups *)
Definition py_int (s : string) : result Z :=
  let '(neg, body) := signed (rstrip (lstrip s)) in
  match grouped_digits body false 0 with
  | Some v => Ok (if neg then - v else v)
  | None => Raise ValueError
  end.

(** [KITTIDepthSelection.get_ids(gt)], on the sorted list [depth_files] that
    [glob] finds for the pattern of the depth images. *)
Definition get_ids (depth_files : list string) : result (list Z) :=
  mapM (fun depth_file => py_int (Py.slice depth_file (-23) (-13))) depth_files.

(** ** Further functions of data.py: timestamps, iteration, Dataset.__init__ *)

(** What [for t in ts] yields for the array [np.genfromtxt(..., dtype=str)]
    returns: a row of strings when the array is two-dimensional, one string
    when it is one-dimensional. *)
Inductive ts_entry : Type :=
| Line (cols : list string)
| Token (s : string).

(** [t[i]] *)
Definition entry_at (t : ts_entry) (i : nat) : result string :=
  match t with
  | Line cols => of_option IndexError (cols !! i)
  | Token s =>
      match String.get i s with
      | Some c => Ok (String c EmptyString)
      | None => Raise IndexError
      end
  end.

Section Timestamps.
Local Open Scope R_scope.

(** [float(s)] *)
Variable float : string -> result R.
(** [datetime.datetime.strptime(s, "%Y-%m-%d_%H:%M:%S").timestamp()] *)
Variable strptime_timestamp : string -> result R.
(** [np.genfromtxt(file, dtype=str)], as the list of its entries *)
Variable genfromtxt_str : string -> result (list ts_entry).

(** The body of the loop of [get_timestamps]: the stamp of one entry. *)
Definition stamp_of (t : ts_entry) : result R :=
  let* date := entry_at t 0 in
  let* time := entry_at t 1 in
  match Py.split "."%char time with
  | [day_time; sec] =>
      let* sec := float ("0." +:+ sec) in
      let* whole := strptime_timestamp (date +:+ "_" +:+ day_time) in
      Ok (whole + sec)
  | _ => Raise ValueError
  end.

(** [KITTIRawPoses.get_timestamps(sensor, zero_origin)] *)
Definition get_timestamps (path subseq sensor : string) (zero_origin : bool)
  : result (list R) :=
  if negb (String.eqb sensor "gps" || String.eqb sensor "lidar")
  then Raise AssertionError
  else
    let* sensor_folder :=
      if String.eqb sensor "gps" then Ok "oxts"%string
      else if String.eqb sensor "lidar" then Ok "velodyne_points"%string
           else Raise ValueError in
    let* ts := genfromtxt_str
                 (path_join path [subseq; sensor_folder; "timestamps.txt"%string]) in
    let* timestamps := mapM stamp_of ts in
    if zero_origin
    then mapM (fun t => let* t0 := of_option IndexError (timestamps !! 0%nat) in
                        Ok (t - t0)) timestamps
    else Ok timestamps.

End Timestamps.

(** [KITTIRawPoses.__len__()] *)
Definition KITTIRawPoses_len (self : KITTIRawPoses) : nat :=
  List.length (raw_ts self).

(** [KITTIRawPoses.__iter__()]: the items it yields, collected in order. *)
Definition KITTIRawPoses_iter (self : KITTIRawPoses) : result (list mat) :=
  mapM (fun i => KITTIRawPoses_getitem self (Z.of_nat i))
       (seq 0 (KITTIRawPoses_len self)).

(** [a[i]] for one index of a list of indices: counted from the end when
    negative, [IndexError] outside [-len(a) .. len(a) - 1]. *)
Definition np_take {A : Type} (a : list A) (i : Z) : result A :=
  let n := Z.of_nat (List.length a) in
  if ((- n <=? i) && (i <? n))%Z
  then of_option IndexError (a !! Z.to_nat (if (i <? 0)%Z then (i + n)%Z else i))
  else Raise IndexError.

(** [self.poses] of [Dataset.__init__]: [ds_poses.poses[ds_depths.ids]] *)
Definition Dataset_poses (self : Dataset) : result (list mat) :=
  mapM (np_take (raw_poses (ds_poses self))) (sel_ids (ds_depths self)).

(** [Dataset.__len__()] *)
Definition Dataset_len (self : Dataset) : nat := List.length (Dataset_ids self).

(** A time table of two lines, and the same first line alone. *)
Definition two_lines : list ts_entry :=
  [Line ["2011-09-26"; "13:02:25.5"]; Line ["2011-09-26"; "13:02:26.25"]].

Definition one_line : list ts_entry :=
  [Token "2011-09-26"; Token "13:02:25.5"].

(** A clock for the samples: the seconds of a [date_HH:MM:SS] string. *)
Definition sample_clock (s : string) : result R :=
  let* sec := of_option ValueError (Py.int_of_str (Py.slice_from s (-2))) in
  if String.eqb (Py.slice_to s 17) "2011-09-26_13:02:" then Ok (IZR sec)
  else Raise ValueError.

Definition sample_float (s : string) : result R :=
  of_option ValueError (literal_eval s).

(** Three poses, told apart by their first entry, under two timestamps. *)
Definition three_poses : KITTIRawPoses :=
  {| raw_path := "/kitti_raw"; raw_subseq := "drive";
     gps2cam_transform := eye 4;
     raw_poses := [[[1]]; [[2]]; [[3]]]%R;
     raw_ts := [0; 1]%R |}.

Definition sparse_frames : Dataset :=
  {| ds_poses := three_poses;
     ds_depths := {| sel_path := "/depth"; sel_subseq := "drive";
                     sel_image := "image_02"; sel_ids := [1; 0] |} |}.

(** * Properties *)

(** ** Python strings *)

Module PyFacts.
Import Py.

Lemma app_nil_l (t : string) : ("" +:+ t)%string = t.
Proof. reflexivity. Qed.

Lemma app_cons c (s t : string) : (String c s +:+ t)%string = String c (s +:+ t).
Proof. reflexivity. Qed.

Lemma app_nil_r (s : string) : (s +:+ "")%string = s.
Proof. induction s as [|c s IH]; [reflexivity | now rewrite app_cons, IH]. Qed.

Lemma length_app (s t : string) :
  String.length (s +:+ t) = (String.length s + String.length t)%nat.
Proof.
  induction s as [|c s IH]; [reflexivity|].
  rewrite app_cons. simpl. now rewrite IH.
Qed.

Lemma app_assoc (s t u : string) : ((s +:+ t) +:+ u = s +:+ (t +:+ u))%string.
Proof.
  induction s as [|c s IH]; [reflexivity | now rewrite !app_cons, IH].
Qed.

Lemma length_replicate k c : String.length (replicate k c) = k.
Proof. induction k as [|k IH]; simpl; [reflexivity | now rewrite IH]. Qed.

Lemma int_rec_app (s t : string) : forall a,
  int_rec (s +:+ t) a =
  match int_rec s a with Some a' => int_rec t a' | None => None end.
Proof.
  induction s as [|c s IH]; intros a; [reflexivity|].
  rewrite app_cons. simpl.
  destruct (digit_val c); [apply IH | reflexivity].
Qed.

Lemma int_rec_zeros k : int_rec (replicate k "0"%char) 0 = Some 0.
Proof. induction k as [|k IH]; simpl; [reflexivity | exact IH]. Qed.

Lemma all_digits_app s t :
  all_digits (s +:+ t) = all_digits s && all_digits t.
Proof.
  induction s as [|c s IH]; [reflexivity|].
  rewrite app_cons. simpl.
  destruct (digit_val c); [exact IH | reflexivity].
Qed.

Lemma all_digits_zeros k : all_digits (replicate k "0"%char) = true.
Proof. induction k as [|k IH]; simpl; [reflexivity | exact IH]. Qed.

Lemma digit_val_char d : 0 <= d < 10 -> digit_val (digit_char d) = Some d.
Proof.
  intros H. assert (Hd : In d [0;1;2;3;4;5;6;7;8;9]) by (simpl; lia).
  simpl in Hd.
  repeat (destruct Hd as [<- | Hd]; [reflexivity|]). destruct Hd.
Qed.

(** What [digits_rec] prepends to its accumulator: the decimal digits of
    [n], at least one and no more than the magnitude of [n] allows. *)
Lemma digits_rec_spec fuel : forall n acc,
  (1 <= fuel)%nat -> 0 <= n < 2 ^ Z.of_nat fuel ->
  exists ds,
    digits_rec fuel n acc = (ds +:+ acc)%string /\
    (1 <= String.length ds)%nat /\
    (forall k, (1 <= k)%nat -> n < 10 ^ Z.of_nat k -> (String.length ds <= k)%nat) /\
    all_digits ds = true /\
    (forall a, int_rec ds a = Some (a * 10 ^ Z.of_nat (String.length ds) + n)).
Proof.
  induction fuel as [|fuel IH]; intros n acc Hf Hn; [lia|].
  cbn [digits_rec]. destruct (Z.ltb_spec n 10) as [Hlt | Hge].
  - exists (String (digit_char (n mod 10)) EmptyString).
    rewrite Z.mod_small by lia. cbn [int_rec all_digits String.length].
    rewrite digit_val_char by lia.
    repeat split; try lia; try reflexivity.
    intros a. f_equal. change (Z.of_nat 1) with 1. lia.
  - assert (Hfuel : (1 <= fuel)%nat).
    { destruct fuel; [change (2 ^ Z.of_nat 1) with 2 in Hn; lia | lia]. }
    assert (Hdiv : 0 <= n / 10 < 2 ^ Z.of_nat fuel).
    { split; [apply Z.div_pos; lia|].
      apply Z.div_lt_upper_bound; [lia|].
      rewrite Nat2Z.inj_succ, Z.pow_succ_r in Hn by lia. lia. }
    destruct (IH (n / 10) (String (digit_char (n mod 10)) acc) Hfuel Hdiv)
      as (ds & Heq & Hlen & Hbound & Hdig & Hint).
    exists (ds +:+ String (digit_char (n mod 10)) EmptyString)%string.
    assert (Hmod : 0 <= n mod 10 < 10) by (apply Z.mod_pos_bound; lia).
    assert (Hlen1 : String.length (ds +:+ String (digit_char (n mod 10)) "")
                    = S (String.length ds)).
    { rewrite length_app. cbn [String.length]. lia. }
    repeat split.
    + rewrite Heq, app_assoc. reflexivity.
    + lia.
    + intros k Hk Hnk. rewrite Hlen1.
      destruct k as [|k]; [lia|].
      destruct k as [|k]; [change (10 ^ Z.of_nat 1) with 10 in Hnk; lia|].
      assert (String.length ds <= S k)%nat; [|lia].
      apply Hbound; [lia|].
      apply Z.div_lt_upper_bound; [lia|].
      rewrite (Nat2Z.inj_succ (S k)), Z.pow_succ_r in Hnk by lia. lia.
    + rewrite all_digits_app, Hdig. cbn [all_digits andb].
      now rewrite digit_val_char.
    + intros a. rewrite int_rec_app, Hint. cbn [int_rec].
      rewrite digit_val_char by lia. f_equal.
      rewrite Hlen1, Nat2Z.inj_succ, Z.pow_succ_r by lia.
      pose proof (Z.div_mod n 10 ltac:(lia)). lia.
Qed.

Lemma str_nonneg_spec n :
  0 <= n ->
  (1 <= String.length (str_nonneg n))%nat /\
  (forall k, (1 <= k)%nat -> n < 10 ^ Z.of_nat k ->
             (String.length (str_nonneg n) <= k)%nat) /\
  all_digits (str_nonneg n) = true /\
  int_of_str (str_nonneg n) = Some n.
Proof.
  intros Hn. unfold str_nonneg.
  destruct (digits_rec_spec (S (Z.to_nat (Z.log2 n))) n EmptyString)
    as (ds & Heq & Hlen & Hbound & Hdig & Hint); [lia | |].
  - rewrite Nat2Z.inj_succ, Z2Nat.id by apply Z.log2_nonneg.
    destruct (Z.eq_dec n 0) as [-> | Hnz]; [vm_compute; split; congruence|].
    split; [lia | apply Z.log2_spec; lia].
  - rewrite Heq, app_nil_r. repeat split; auto.
    unfold int_of_str. destruct ds; [cbn [String.length] in Hlen; lia|].
    rewrite Hint. reflexivity.
Qed.

End PyFacts.

(** ** convert_img_label *)

Lemma slice_default_short k :
  (1 <= k <= 10)%nat ->
  Py.slice_to "0000000000" (- Z.of_nat k) = Py.replicate (10 - k) "0"%char.
Proof.
  intros Hk.
  assert (Hin : In k [1; 2; 3; 4; 5; 6; 7; 8; 9; 10]%nat) by (simpl; lia).
  simpl in Hin.
  repeat (destruct Hin as [<- | Hin]; [reflexivity|]). destruct Hin.
Qed.

Lemma slice_default_long k :
  (10 < k)%nat -> Py.slice_to "0000000000" (- Z.of_nat k) = ""%string.
Proof.
  intros Hk. unfold Py.slice_to, Py.slice, Py.bound.
  change (Py.len "0000000000") with 10.
  destruct (Z.ltb_spec (- Z.of_nat k) 0) as [_ | Hge]; [|lia].
  rewrite (Z.max_r (- Z.of_nat k + 10) 0) by lia.
  reflexivity.
Qed.

(** C8. For every input whose string form has between 1 and 10 characters,
    [convert_img_label] returns the 10-character string made of [str(name)]
    left-padded with ['0']; for a nonnegative integer below [10^10] the result
    is the 10-digit decimal label of that integer; an input whose string form
    is longer than 10 characters is returned unchanged. *)
Theorem convert_img_label_pads :
  (forall name : Py.value,
      (1 <= String.length (Py.str name) <= 10)%nat ->
      convert_img_label name =
        (Py.replicate (10 - String.length (Py.str name)) "0"%char
           +:+ Py.str name)%string /\
      String.length (convert_img_label name) = 10%nat) /\
  (forall n : Z,
      0 <= n < 10 ^ 10 ->
      String.length (convert_img_label (Py.Int n)) = 10%nat /\
      Py.all_digits (convert_img_label (Py.Int n)) = true /\
      Py.int_of_str (convert_img_label (Py.Int n)) = Some n) /\
  (forall name : Py.value,
      (10 < String.length (Py.str name))%nat ->
      convert_img_label name = Py.str name).
Proof.
  assert (Hpad : forall name : Py.value,
      (1 <= String.length (Py.str name) <= 10)%nat ->
      convert_img_label name =
        (Py.replicate (10 - String.length (Py.str name)) "0"%char
           +:+ Py.str name)%string /\
      String.length (convert_img_label name) = 10%nat).
  { intros name Hlen. unfold convert_img_label, Py.len.
    rewrite slice_default_short by exact Hlen. split; [reflexivity|].
    rewrite PyFacts.length_app, PyFacts.length_replicate. lia. }
  split; [exact Hpad|]. split.
  - intros n Hn.
    destruct (PyFacts.str_nonneg_spec n ltac:(lia)) as (H1 & Hk & Hdig & Hint).
    assert (Hstr : Py.str (Py.Int n) = Py.str_nonneg n).
    { unfold Py.str, Py.str_int. destruct (Z.ltb_spec n 0); [lia | reflexivity]. }
    assert (Hlen : (1 <= String.length (Py.str (Py.Int n)) <= 10)%nat).
    { rewrite Hstr. split; [exact H1|]. apply Hk; [lia|].
      change (Z.of_nat 10) with 10. lia. }
    destruct (Hpad (Py.Int n) Hlen) as [Heq Hten].
    split; [exact Hten|]. rewrite Heq, Hstr. split.
    + rewrite PyFacts.all_digits_app, PyFacts.all_digits_zeros, Hdig. reflexivity.
    + unfold Py.int_of_str in *.
      destruct (Py.str_nonneg n) as [|c s] eqn:Es; [discriminate|].
      destruct (_ +:+ String c s)%string as [|c' s'] eqn:Ea.
      * apply (f_equal String.length) in Ea.
        rewrite PyFacts.length_app in Ea. simpl in Ea. lia.
      * rewrite <- Ea, PyFacts.int_rec_app, PyFacts.int_rec_zeros. exact Hint.
  - intros name Hlen. unfold convert_img_label, Py.len.
    rewrite slice_default_long by exact Hlen. reflexivity.
Qed.

Lemma convert_img_label_pads_witness :
  convert_img_label (Py.Int 42) = "0000000042"%string /\
  Py.int_of_str (convert_img_label (Py.Int 42)) = Some 42 /\
  convert_img_label (Py.Str "12345678901") = "12345678901"%string.
Proof.
  destruct convert_img_label_pads as (Hpad & Hint & Hlong).
  split; [|split].
  - destruct (Hpad (Py.Int 42)) as [Heq _]; [vm_compute; lia|].
    rewrite Heq. reflexivity.
  - apply (Hint 42). lia.
  - apply (Hlong (Py.Str "12345678901")). vm_compute. lia.
Defined.

(** ** Arrays *)

Section Chunks.
Context {A : Type}.

Lemma chunks_singletons (l : list A) :
  chunks (List.length l) 1 l = map (fun x => [x]) l.
Proof.
  induction l as [|x l IH]; [reflexivity|].
  cbn [List.length chunks map firstn skipn].
  now rewrite firstn_O, skipn_O, IH.
Qed.

Lemma chunks_concat (m : list (list A)) (c : nat) :
  Forall (fun row => List.length row = c) m ->
  chunks (List.length m) c (concat m) = m.
Proof.
  induction m as [|row m IH]; intros Hall; [reflexivity|].
  inversion Hall as [|? ? Hrow Hm]; subst.
  cbn [List.length chunks concat].
  rewrite firstn_app, Nat.sub_diag, firstn_all, firstn_O, app_nil_r.
  rewrite skipn_app, Nat.sub_diag, skipn_all, skipn_O. cbn [app].
  now rewrite IH.
Qed.

Lemma length_concat_shape (m : list (list A)) (r c : nat) :
  is_shape r c m -> List.length (concat m) = (r * c)%nat.
Proof.
  intros [<- Hall]. induction Hall as [|row m Hrow _ IH]; [reflexivity|].
  cbn [concat List.length]. rewrite length_app, IH, Hrow. lia.
Qed.

End Chunks.

Lemma is_shape_map {A B : Type} (f : list A -> list B) (r c c' : nat) m :
  (forall row, List.length row = c -> List.length (f row) = c') ->
  is_shape r c m -> is_shape r c' (map f m).
Proof.
  intros Hf [Hr Hall]. split; [now rewrite length_map|].
  apply Forall_map. eapply Forall_impl; [exact Hall | exact Hf].
Qed.

(** Reshaping a (r, c) array to (r, c, 1) wraps every entry. *)
Lemma reshape3_rc1 {A : Type} (r c : nat) (m : list (list A)) :
  is_shape r c m ->
  reshape3 r c 1 (concat m) = Ok (map (map (fun x => [x])) m).
Proof.
  intros Hs. unfold reshape3.
  rewrite (length_concat_shape m r c Hs), Nat.mul_1_r, Nat.eqb_refl.
  rewrite <- (length_concat_shape m r c Hs), chunks_singletons.
  rewrite concat_map. destruct Hs as [<- Hall].
  rewrite <- (length_map (map (fun x => [x])) m).
  rewrite chunks_concat; [reflexivity|].
  apply Forall_map. eapply Forall_impl; [exact Hall|].
  intros row Hrow. cbn. now rewrite length_map.
Qed.

(** ** np.max *)

Lemma fold_max_ge (xs : list Z) : forall x, x <= fold_left Z.max xs x.
Proof.
  induction xs as [|y xs IH]; intros x; cbn [fold_left]; [lia|].
  specialize (IH (Z.max x y)). lia.
Qed.

Lemma fold_max_bound (xs : list Z) : forall x v,
  In v xs -> v <= fold_left Z.max xs x.
Proof.
  induction xs as [|y xs IH]; intros x v Hin; [destruct Hin|].
  cbn [fold_left]. destruct Hin as [<- | Hin]; [|now apply IH].
  pose proof (fold_max_ge xs (Z.max x y)). lia.
Qed.

Lemma fold_max_in (xs : list Z) : forall x,
  fold_left Z.max xs x = x \/ In (fold_left Z.max xs x) xs.
Proof.
  induction xs as [|y xs IH]; intros x; cbn [fold_left]; [now left|].
  destruct (IH (Z.max x y)) as [H | H]; [|right; now right].
  rewrite H. destruct (Z.max_spec x y) as [[_ ->] | [_ ->]];
    [right; now left | now left].
Qed.

(** [np.max] of a non-empty array is one of its entries and bounds them all. *)
Lemma np_max_spec (a : list (list Z)) :
  concat a <> [] ->
  exists m, np_max a = Ok m /\ In m (concat a) /\
            forall v, In v (concat a) -> v <= m.
Proof.
  intros Hne. unfold np_max. destruct (concat a) as [|x xs]; [congruence|].
  exists (fold_left Z.max xs x). split; [reflexivity|]. split.
  - destruct (fold_max_in xs x) as [-> | H]; [now left | now right].
  - intros v [<- | Hin]; [apply fold_max_ge | now apply fold_max_bound].
Qed.

(** ** KITTIDepthSelection.get_depth *)

Lemma rectangular_nonempty {A : Type} (m : list (list A)) :
  rectangular m -> concat m <> [] -> (1 <= nrows m)%nat /\ (1 <= ncols m)%nat.
Proof.
  intros [_ Hall] Hne. destruct m as [|row m]; [now elim Hne|].
  cbn [nrows ncols List.length] in *. split; [lia|].
  destruct row as [|x row]; [|cbn [List.length]; lia].
  exfalso. apply Hne. cbn [concat app].
  inversion Hall as [|? ? _ Hm]; subst. clear Hall Hne.
  induction Hm as [|r m Hr _ IH]; [reflexivity|].
  destruct r; [exact IH | discriminate].
Qed.

Lemma mark_invalid_positive (v : Z) :
  0 < v -> mark_invalid (depth_scale v) = depth_scale v.
Proof.
  intros Hv. unfold mark_invalid.
  destruct (Qeq_bool (depth_scale v) 0) eqn:E; [|reflexivity].
  apply Qeq_bool_iff in E. unfold depth_scale, Qeq in E. simpl in E. lia.
Qed.

Lemma mark_invalid_zero : mark_invalid (depth_scale 0) = (-1)%Q.
Proof. reflexivity. Qed.

(** Past its guard, [get_depth] keeps the layout of the image and wraps
    every pixel in a last axis of extent 1. *)
Lemma get_depth_of_guarded (depth : list (list Z)) (to_depth_map : bool) :
  rectangular depth ->
  (exists v, In v (concat depth) /\ 255 < v) ->
  get_depth_of depth to_depth_map =
    if to_depth_map
    then Ok (Metres (map (map (fun v => [mark_invalid (depth_scale v)])) depth))
    else Ok (RawDepth (map (map (fun v => [v])) depth)).
Proof.
  intros Hrect (v & Hin & Hv). unfold get_depth_of.
  destruct (np_max_spec depth) as (m & -> & _ & Hmax);
    [intros E; rewrite E in Hin; destruct Hin|].
  cbn [bind]. specialize (Hmax v Hin).
  destruct (Z.ltb_spec 255 m) as [_|]; [|lia]. cbn [negb].
  destruct to_depth_map.
  - rewrite concat_map.
    rewrite (reshape3_rc1 (nrows depth) (ncols depth)
               (map (map (fun v => mark_invalid (depth_scale v))) depth)).
    + cbn [bind]. rewrite map_map. do 2 f_equal.
      apply map_ext. intros row. now rewrite map_map.
    + eapply is_shape_map; [|exact Hrect]. intros row Hrow.
      now rewrite length_map.
  - rewrite (reshape3_rc1 (nrows depth) (ncols depth) depth Hrect).
    reflexivity.
Qed.

Lemma is_shape3_wrap {A B : Type} (f : A -> B) (m : list (list A)) :
  rectangular m ->
  is_shape3 (nrows m) (ncols m) 1 (map (map (fun v => [f v])) m).
Proof.
  intros [Hr Hall]. split; [unfold nrows in *; now rewrite length_map|].
  apply Forall_map. eapply Forall_impl; [exact Hall|].
  intros row Hrow. cbn. split; [now rewrite length_map|].
  apply Forall_map, Forall_forall. reflexivity.
Qed.

(** C3, as the code has it. For every depth image that passes the 16-bit
    guard of [get_depth] (some pixel value exceeds 255), the call with
    [to_depth_map=True] returns an array of shape (rows, cols, 1) that holds
    [v / 256] at every pixel whose stored value [v] is positive. *)
Theorem get_depth_metres (d : disk) (self : KITTIDepthSelection) (i : Z)
    (gt : bool) (depth : list (list Z)) :
  grey d !! depth_file self i gt = Some depth ->
  rectangular depth ->
  (exists v, In v (concat depth) /\ 255 < v) ->
  exists a,
    get_depth d self i gt true = Ok (Metres a) /\
    is_shape3 (nrows depth) (ncols depth) 1 a /\
    forall (y x : nat) (row : list Z) (v : Z),
      depth !! y = Some row -> row !! x = Some v -> 0 < v ->
      exists arow, a !! y = Some arow /\ arow !! x = Some [depth_scale v].
Proof.
  intros Hfile Hrect Hbig. unfold get_depth. rewrite Hfile. cbn [of_option bind].
  rewrite (get_depth_of_guarded depth true Hrect Hbig).
  eexists. split; [reflexivity|]. split; [now apply is_shape3_wrap|].
  intros y x row v Hy Hx Hv.
  exists (map (fun v => [mark_invalid (depth_scale v)]) row). split.
  - rewrite list_lookup_fmap, Hy. reflexivity.
  - rewrite list_lookup_fmap, Hx. cbn. now rewrite mark_invalid_positive.
Qed.

Lemma get_depth_metres_witness :
  exists a,
    get_depth far_disk far_selection 7 true true = Ok (Metres a) /\
    is_shape3 2 2 1 a /\
    exists arow, a !! 1%nat = Some arow /\ arow !! 0%nat = Some [depth_scale 512].
Proof.
  destruct (get_depth_metres far_disk far_selection 7 true [[0; 256]; [512; 300]])
    as (a & Ha & Hs & Hpix).
  - apply lookup_singleton_eq.
  - split; [reflexivity|]. repeat constructor.
  - exists 256. split; [simpl; tauto | lia].
  - exists a. split; [exact Ha|]. split; [exact Hs|].
    apply (Hpix 1%nat 0%nat [512; 300] 512); [reflexivity | reflexivity | lia].
Defined.

(** C3 as stated fails: a 16-bit image whose values are all at most 255 is
    rejected by the guard, so nothing is returned for it. *)
Lemma get_depth_metres_counterexample :
  grey near_disk !! depth_file near_selection 0 true = Some [[100; 0]; [255; 17]] /\
  uint16_image [[100; 0]; [255; 17]] /\
  get_depth near_disk near_selection 0 true true = Raise AssertionError.
Proof.
  assert (H : grey near_disk !! depth_file near_selection 0 true
              = Some [[100; 0]; [255; 17]]) by apply lookup_singleton_eq.
  split; [exact H|]. split.
  - repeat constructor; lia.
  - unfold get_depth. rewrite H. reflexivity.
Qed.

(** C9. Once the image is loaded, [get_depth] raises [AssertionError] when
    no pixel value exceeds 255, and does not raise it when one does. *)
Theorem get_depth_guard (d : disk) (self : KITTIDepthSelection) (i : Z)
    (gt to_depth_map : bool) (depth : list (list Z)) :
  grey d !! depth_file self i gt = Some depth ->
  concat depth <> [] ->
  ((forall v, In v (concat depth) -> v <= 255) ->
   get_depth d self i gt to_depth_map = Raise AssertionError) /\
  ((exists v, In v (concat depth) /\ 255 < v) ->
   get_depth d self i gt to_depth_map <> Raise AssertionError).
Proof.
  intros Hfile Hne. unfold get_depth, get_depth_of.
  rewrite Hfile. cbn [of_option bind].
  destruct (np_max_spec depth Hne) as (m & -> & Hin & Hmax). cbn [bind].
  split.
  - intros Hsmall. specialize (Hsmall m Hin).
    destruct (Z.ltb_spec 255 m); [lia | reflexivity].
  - intros (v & Hv & Hbig). specialize (Hmax v Hv).
    destruct (Z.ltb_spec 255 m); [|lia]. cbn [negb].
    unfold reshape3.
    destruct to_depth_map;
      match goal with |- context [Nat.eqb ?a ?b] => destruct (Nat.eqb a b) end;
      cbn [bind]; discriminate.
Qed.

Lemma get_depth_guard_witness :
  get_depth near_disk near_selection 0 true false = Raise AssertionError.
Proof.
  refine (proj1 (get_depth_guard near_disk near_selection 0 true false
                   [[100; 0]; [255; 17]] _ _) _).
  - apply lookup_singleton_eq.
  - discriminate.
  - simpl. intros v Hv. repeat (destruct Hv as [<- | Hv]; [lia|]). destruct Hv.
Defined.

(** ** save_gradslam_image *)

Lemma mapM_map_ok {A B C : Type} (f : A -> result B) (g : C -> A) (h : C -> B)
    (l : list C) :
  (forall c, f (g c) = Ok (h c)) -> mapM f (map g l) = Ok (map h l).
Proof.
  intros Hf. induction l as [|c l IH]; [reflexivity|].
  cbn [map mapM]. rewrite Hf, IH. reflexivity.
Qed.

Lemma squeeze_wide {A : Type} (l : list (nd A)) :
  (2 <= List.length l)%nat -> squeeze (Arr l) = Arr (map squeeze l).
Proof.
  destruct l as [|a [|b l]]; cbn [List.length]; intros H; try lia; reflexivity.
Qed.

(** On a (1, 1, H, W, 1) tensor with H, W >= 2 the pixels written are the
    entries of the depth map, scaled and cast one by one. *)
Lemma gradslam_pixels_depth (dm : list (list Q)) :
  rectangular dm -> (2 <= nrows dm)%nat -> (2 <= ncols dm)%nat ->
  gradslam_pixels (depth_tensor dm) = Ok (map (map encode_depth) dm).
Proof.
  intros [_ Hall] Hr Hc. unfold gradslam_pixels, depth_tensor, expand.
  cbn [squeeze0]. unfold nd_of_cube, nd_of_mat, nd_of_vec.
  cbn [nd_map]. rewrite !map_map.
  rewrite squeeze_wide by (now rewrite length_map).
  rewrite map_map.
  assert (Hrows : map
    (fun row : list Q =>
       squeeze (nd_map astype_uint16 (nd_map (fun x : Q => (x * 256)%Q)
         (Arr (map (fun v => Arr (map Sca v)) (map (fun x => [x]) row))))))
    dm = map (fun row => Arr (map Sca (map encode_depth row))) dm).
  { apply map_ext_in. intros row Hin.
    rewrite Forall_forall in Hall. apply list_elem_of_In, Hall in Hin.
    cbn [nd_map]. rewrite !map_map.
    rewrite squeeze_wide by (rewrite length_map; lia).
    rewrite !map_map. reflexivity. }
  rewrite Hrows. clear Hrows.
  destruct dm as [|row dm]; [cbn [nrows List.length] in Hr; lia|].
  cbn [map fromarray].
  change (mapM entries (Arr (map Sca (map encode_depth row))
            :: map (fun row0 => Arr (map Sca (map encode_depth row0))) dm))
    with (mapM entries (map (fun row0 => Arr (map Sca (map encode_depth row0)))
                          (row :: dm))).
  apply (mapM_map_ok _ _ (map encode_depth) (row :: dm)). intros r. cbn [entries].
  rewrite map_map. apply (mapM_map_ok _ _ encode_depth). reflexivity.
Qed.

(** The cast keeps the integer part of a value in [0, 65536). *)
Lemma astype_uint16_floor (q : Q) :
  (0 <= q)%Q -> (q < 65536)%Q -> astype_uint16 q = Qfloor q.
Proof.
  intros H0 H1. unfold astype_uint16.
  assert (Hnum : 0 <= Qnum q).
  { unfold Qle in H0. simpl in H0. lia. }
  rewrite Z.quot_div_nonneg by lia.
  assert (E : Qnum q / Z.pos (Qden q) = Qfloor q) by (now destruct q).
  rewrite E. apply Z.mod_small. split.
  - change 0 with (Qfloor 0). now apply Qfloor_resp_le.
  - assert (Hlt : (inject_Z (Qfloor q) < 65536)%Q).
    { apply Qle_lt_trans with q; [apply Qfloor_le | exact H1]. }
    change 65536%Q with (inject_Z 65536) in Hlt.
    now rewrite <- Zlt_Qlt in Hlt.
Qed.




(** A positive depth below 1/256 m is stored as 0, which [get_depth] reads
    as an invalid pixel. *)
Lemma tiny_depth_reads_invalid :
  encode_depth (1 # 1000) = 0 /\
  mark_invalid (depth_scale (encode_depth (1 # 1000))) = (-1)%Q.
Proof. split; reflexivity. Qed.

(** ** complete_sequence *)

Lemma isdir_remove (d d' : disk) (p q : string) :
  os_remove d p = Ok d' -> os_path_isdir d' q = os_path_isdir d q.
Proof.
  unfold os_remove. destruct (os_path_isdir d p); [discriminate|].
  destruct (is_file d p); [|discriminate].
  intros [= <-]. reflexivity.
Qed.

Lemma grey_remove_other (d d' : disk) (p q : string) :
  os_remove d p = Ok d' -> q <> p -> grey d' !! q = grey d !! q.
Proof.
  unfold os_remove. destruct (os_path_isdir d p); [discriminate|].
  destruct (is_file d p); [|discriminate].
  intros [= <-] Hne. cbn [grey]. now apply lookup_delete_ne.
Qed.




(** *** The whole sequence, with [replace] off *)

Lemma grey_exists (d : disk) (p : string) (img : list (list Z)) :
  grey d !! p = Some img -> os_path_exists d p = true.
Proof.
  intros H. unfold os_path_exists, is_file.
  rewrite (bool_decide_eq_true_2 (is_Some (grey d !! p))); [reflexivity|].
  rewrite H. now eexists.
Qed.

Lemma make_folders_keeps (subfolders : list string) : forall d path d' path',
  make_folders d path subfolders = Ok (d', path') -> grey d' = grey d.
Proof.
  induction subfolders as [|sub rest IH]; intros d path d' path' H.
  - cbn [make_folders] in H. now injection H as <- _.
  - cbn [make_folders] in H.
    destruct (os_path_isdir d (path_join2 path sub)).
    + cbn [bind] in H. now apply IH in H.
    + unfold os_mkdir in H.
      destruct (os_path_exists d (path_join2 path sub)); [discriminate|].
      cbn [bind] in H. apply IH in H. exact H.
Qed.

Lemma complete_item_keeps (model : nd Q -> nd Q -> result (nd Q)) (ds : dataset)
    (path_to_save : string) (w w' : world) (i : nat)
    (p : string) (img : list (list Z)) :
  complete_item model ds path_to_save false w i = Ok w' ->
  grey (files w) !! p = Some img -> grey (files w') !! p = Some img.
Proof.
  unfold complete_item. intros H Hp.
  destruct (img_path_of ds path_to_save i) as [img_path|]; [|discriminate].
  cbn [bind negb] in H. rewrite andb_true_r, andb_false_r in H.
  destruct (os_path_exists (files w) img_path) eqn:Hex.
  - now injection H as <-.
  - cbn [bind] in H.
    destruct (ds_item ds i) as [[[[colors depths] intrinsics] poses]|];
      [|discriminate].
    cbn [bind] in H.
    destruct (model depths (validity_mask depths)) as [pred|]; [|discriminate].
    cbn [bind] in H. unfold save_gradslam_image in H.
    destruct (gradslam_pixels pred) as [pix|]; [|discriminate].
    cbn [bind] in H. unfold image_save in H.
    destruct (os_path_isdir (files w) img_path); [discriminate|].
    cbn [bind] in H. injection H as <-. cbn [files grey].
    rewrite lookup_insert_ne; [exact Hp|].
    intros ->. rewrite (grey_exists _ _ _ Hp) in Hex. discriminate.
Qed.

Lemma for_each_keeps {S : Type} (body : S -> nat -> result S) (P : S -> Prop) :
  (forall s i s', body s i = Ok s' -> P s -> P s') ->
  forall l s s', for_each body s l = Ok s' -> P s -> P s'.
Proof.
  intros Hbody. induction l as [|i l IH]; intros s s' H Hs.
  - cbn [for_each] in H. now injection H as <-.
  - cbn [for_each] in H. destruct (body s i) as [s1|] eqn:E; [|discriminate].
    cbn [bind] in H. eapply IH; [exact H|]. eapply Hbody; eassumption.
Qed.

(** When [complete_sequence] runs to its end with [replace] off, every image
    that was on disk before is still there, unchanged. *)
Lemma complete_sequence_keeps_existing (model : nd Q -> nd Q -> result (nd Q))
    (ds : dataset) (path_to_save subseq camera : string) (w w' : world)
    (p : string) (img : list (list Z)) :
  complete_sequence model ds path_to_save subseq camera false w = Ok w' ->
  grey (files w) !! p = Some img -> grey (files w') !! p = Some img.
Proof.
  unfold complete_sequence. intros H Hp.
  destruct (make_folders _ _ _) as [[d path]|] eqn:Hmk; [|discriminate].
  cbn [bind] in H. apply make_folders_keeps in Hmk.
  refine (for_each_keeps _ (fun s => grey (files s) !! p = Some img) _ _ _ _ H _).
  - intros s i s' Hstep Hs. eapply complete_item_keeps; eassumption.
  - cbn [files]. now rewrite Hmk.
Qed.

(** ** KITTIRawPoses.gps_to_ecef *)

Section EcefFacts.
Local Open Scope R_scope.

Lemma flattening_bounds : 0 < WGS84.f < 1.
Proof.
  assert (E : WGS84.f = 1000000000 / 298257223563) by (unfold WGS84.f; field).
  rewrite E. lra.
Qed.

Lemma eccentricity_bounds : 0 < WGS84.e2 < 1.
Proof.
  pose proof flattening_bounds as Hf. unfold WGS84.e2. nra.
Qed.

(** The radius of curvature is well defined: what [np.sqrt] is applied to
    is positive at every latitude. *)
Lemma radicand_positive (lat : R) : 0 < 1 - WGS84.e2 * (sin lat) ^ 2.
Proof.
  pose proof eccentricity_bounds as He.
  pose proof (SIN_bound lat) as Hs.
  assert (0 <= (sin lat) ^ 2 <= 1) by nra. nra.
Qed.

(** C1, as the code has it. [gps_to_ecef] returns the WGS84 ECEF [x] and
    [y] of the point, and the altitude itself as third coordinate. *)
Theorem gps_to_ecef_xy_alt (lat lon alt : R) :
  gps_to_ecef lat lon alt =
    (WGS84.x (WGS84.radians lat) (WGS84.radians lon) alt,
     WGS84.y (WGS84.radians lat) (WGS84.radians lon) alt,
     alt).
Proof.
  unfold gps_to_ecef, WGS84.x, WGS84.y, WGS84.v, WGS84.radians,
    WGS84.e2, WGS84.f, WGS84.a.
  set (s := sin (lat * (PI / 180))).
  set (f := 1 / (298257223563 / 1000000000)).
  replace (1 - (1 - (1 - f) * (1 - f)) * s * s)
    with (1 - (1 - (1 - f) ^ 2) * s ^ 2) by ring.
  reflexivity.
Qed.

(** C1 as stated fails: on the equator at altitude 1 the third coordinate
    returned is 1, where the ECEF formula gives 0. *)
Lemma gps_to_ecef_counterexample :
  snd (gps_to_ecef 0 0 1) = 1 /\
  WGS84.z (WGS84.radians 0) (WGS84.radians 0) 1 = 0 /\
  snd (gps_to_ecef 0 0 1) <> WGS84.z (WGS84.radians 0) (WGS84.radians 0) 1.
Proof.
  assert (Hz : WGS84.z (WGS84.radians 0) (WGS84.radians 0) 1 = 0).
  { unfold WGS84.z, WGS84.radians. rewrite Rmult_0_l, sin_0. ring. }
  split; [reflexivity|]. split; [exact Hz|].
  rewrite Hz. cbn [gps_to_ecef snd]. lra.
Qed.

End EcefFacts.

(** ** Slices and searches *)

Module SliceFacts.
Import Py PyFacts.

Lemma drop_app (a b : string) : drop (String.length a) (a +:+ b) = b.
Proof. induction a as [|c a IH]; [reflexivity | exact IH]. Qed.

Lemma take_app (a b : string) : take (String.length a) (a +:+ b) = a.
Proof.
  induction a as [|c a IH]; [now destruct b|].
  rewrite app_cons. cbn [String.length take]. now rewrite IH.
Qed.

Lemma bound_inside (s : string) (n : nat) :
  (n <= String.length s)%nat -> bound s (Z.of_nat n) = n.
Proof.
  intros Hn. unfold bound, len.
  destruct (Z.ltb_spec (Z.of_nat n) 0); [lia|]. lia.
Qed.

(** [(a + m + b)[len(a) : len(a) + len(m)] = m] *)
Lemma slice_middle (a m b : string) :
  slice (a +:+ m +:+ b) (len a) (len a + len m) = m.
Proof.
  unfold slice, len. rewrite <- Nat2Z.inj_add.
  rewrite !bound_inside by (rewrite !length_app; lia).
  rewrite drop_app.
  replace (String.length a + String.length m - String.length a)%nat
    with (String.length m) by lia.
  apply take_app.
Qed.

(** [(a + b)[len(a):] = b] *)
Lemma slice_from_app (a b : string) : slice_from (a +:+ b) (len a) = b.
Proof.
  unfold slice_from, len.
  rewrite bound_inside by (rewrite length_app; lia). apply drop_app.
Qed.

Lemma index_char (c : ascii) (t post : string) :
  contains c t = false ->
  index (t +:+ String c post) (String c EmptyString) = Ok (len t).
Proof.
  induction t as [|a t IH]; intros Hc.
  - rewrite app_nil_l. cbn [index startswith]. now rewrite Ascii.eqb_refl.
  - cbn [contains] in Hc. apply orb_false_iff in Hc. destruct Hc as [Hac Hc].
    rewrite app_cons. cbn [index startswith].
    rewrite Ascii.eqb_sym, Hac. cbn [andb].
    rewrite (IH Hc). cbn [bind]. f_equal. unfold len.
    cbn [String.length]. lia.
Qed.

Lemma remove_absent (c : ascii) (s : string) :
  contains c s = false -> remove c s = s.
Proof.
  induction s as [|a s IH]; [reflexivity|]. cbn [contains remove].
  intros H. apply orb_false_iff in H. destruct H as [-> H].
  now rewrite (IH H).
Qed.

Lemma split_from_absent (c : ascii) (s : string) : forall cur,
  contains c s = false -> split_from c cur s = [(cur +:+ s)%string].
Proof.
  induction s as [|a s IH]; intros cur H.
  - now rewrite app_nil_r.
  - cbn [contains] in H. apply orb_false_iff in H. destruct H as [Ha H].
    cbn [split_from]. rewrite Ha, (IH _ H), app_assoc. reflexivity.
Qed.

Lemma split_absent (c : ascii) (s : string) :
  contains c s = false -> split c s = [s].
Proof. intros H. unfold split. now rewrite split_from_absent. Qed.

End SliceFacts.

(** ** KITTIRawPoses.load_calib_file *)

Lemma np_mat_row (txt : string) (vals : list R) :
  number_row txt vals -> np_mat txt = Ok [vals].
Proof.
  intros (H1 & H2 & H3 & H4 & Hvals). unfold np_mat.
  rewrite (SliceFacts.remove_absent "["%char txt H1).
  rewrite (SliceFacts.remove_absent "]"%char txt H2).
  rewrite (SliceFacts.split_absent ";"%char txt H3).
  cbn [mapM]. rewrite (SliceFacts.split_absent ","%char txt H4).
  cbn [map concat]. rewrite app_nil_r, Hvals. cbn [bind forallb ncols].
  now rewrite Nat.eqb_refl.
Qed.

(** How [load_calib_file] reads a text: the first [R:], nine numbers, the
    first [T:], three numbers up to the end of the line. *)
Lemma load_calib_file_parses (d : disk) (path file : string)
    (pre rtxt ttxt post : string)
    (r1 r2 r3 r4 r5 r6 r7 r8 r9 t1 t2 t3 : R) :
  let s := (pre +:+ "R:" +:+ rtxt +:+ "T:" +:+ ttxt +:+ newline +:+ post)%string in
  texts d !! path_join2 path file = Some s ->
  Py.index s "R:" = Ok (Py.len pre) ->
  Py.index s "T:" = Ok (Py.len pre + 2 + Py.len rtxt) ->
  Py.contains "010"%char ttxt = false ->
  number_row rtxt [r1; r2; r3; r4; r5; r6; r7; r8; r9] ->
  number_row ttxt [t1; t2; t3] ->
  load_calib_file d path file =
    Ok [[r1; r2; r3; t1]; [r4; r5; r6; t2]; [r7; r8; r9; t3]; [0; 0; 0; 1]]%R.
Proof.
  intros s Hfile Hr Ht Hnl Hrot Htr. unfold load_calib_file.
  rewrite Hfile. cbn [of_option bind]. rewrite Hr, Ht. cbn [bind].
  assert (Es1 : s = ((pre +:+ "R:") +:+ rtxt
                       +:+ ("T:" +:+ ttxt +:+ newline +:+ post))%string).
  { unfold s. now rewrite !PyFacts.app_assoc. }
  assert (Es2 : s = ((pre +:+ "R:" +:+ rtxt +:+ "T:") +:+ ttxt
                       +:+ (newline +:+ post))%string).
  { unfold s. now rewrite !PyFacts.app_assoc. }
  assert (L1 : Py.len pre + 2 = Py.len (pre +:+ "R:")).
  { unfold Py.len. rewrite PyFacts.length_app. cbn [String.length]. lia. }
  assert (L2 : Py.len pre + 2 + Py.len rtxt + 2
               = Py.len (pre +:+ "R:" +:+ rtxt +:+ "T:")).
  { unfold Py.len. rewrite !PyFacts.length_app. cbn [String.length]. lia. }
  (* the text after [T:] *)
  assert (Hafter : Py.slice_from s (Py.len pre + 2 + Py.len rtxt + 2)
                   = (ttxt +:+ newline +:+ post)%string).
  { rewrite L2, Es2. apply SliceFacts.slice_from_app. }
  rewrite Hafter. unfold newline at 1. rewrite PyFacts.app_cons, PyFacts.app_nil_l.
  rewrite (SliceFacts.index_char _ ttxt post Hnl). cbn [bind].
  (* the two slices *)
  assert (Hs1 : Py.slice s (Py.len pre + 2) (Py.len pre + 2 + Py.len rtxt) = rtxt).
  { rewrite L1, Es1. apply SliceFacts.slice_middle. }
  assert (Hs2 : Py.slice s (Py.len pre + 2 + Py.len rtxt + 2)
                  (Py.len pre + 2 + Py.len rtxt + 2 + Py.len ttxt) = ttxt).
  { rewrite L2, Es2. apply SliceFacts.slice_middle. }
  rewrite Hs1, Hs2.
  rewrite (np_mat_row rtxt _ Hrot), (np_mat_row ttxt _ Htr).
  reflexivity.
Qed.

(** C5, as the code has it. When the first [R:] of the text is followed by
    9 numbers, and the first [T:] by 3 numbers and a line break,
    [load_calib_file] returns the 4x4 matrix with the rotation in its
    top-left 3x3 block (row by row), the translation in its last column and
    [0 0 0 1] as bottom row. *)
Theorem load_calib_file_layout (d : disk) (path file : string)
    (pre rtxt ttxt post : string)
    (r1 r2 r3 r4 r5 r6 r7 r8 r9 t1 t2 t3 : R) :
  let s := (pre +:+ "R:" +:+ rtxt +:+ "T:" +:+ ttxt +:+ newline +:+ post)%string in
  texts d !! path_join2 path file = Some s ->
  Py.index s "R:" = Ok (Py.len pre) ->
  Py.index s "T:" = Ok (Py.len pre + 2 + Py.len rtxt) ->
  Py.contains "010"%char ttxt = false ->
  number_row rtxt [r1; r2; r3; r4; r5; r6; r7; r8; r9] ->
  number_row ttxt [t1; t2; t3] ->
  load_calib_file d path file =
    Ok [[r1; r2; r3; t1]; [r4; r5; r6; t2]; [r7; r8; r9; t3]; [0; 0; 0; 1]]%R.
Proof.
  intros s. now apply load_calib_file_parses.
Qed.

(** Settles [number_row txt vals] for a literal text: the tokens and their
    digits are computed, the values compared as real numbers. *)
Ltac number_row_tac :=
  unfold number_row; repeat split; try reflexivity;
  match goal with
  | |- context [Py.split_ws ?t] =>
      let v := eval vm_compute in (Py.split_ws t) in
      change (Py.split_ws t) with v
  end;
  cbv - [IZR powerRZ Rmult Ropp Rplus Rinv];
  apply (f_equal Ok);
  repeat (apply (f_equal2 (@cons R)); [cbv [powerRZ]; simpl; (lra || field)|]);
  reflexivity.

Lemma load_calib_file_layout_witness :
  load_calib_file calib_sample_disk "/kitti" "calib.txt" =
    Ok [[1; 0; 0; 1 / 2]; [0; 1; 0; -2]; [0; 0; 1; 3]; [0; 0; 0; 1]]%R.
Proof.
  apply (load_calib_file_layout calib_sample_disk "/kitti" "calib.txt"
           ("calib_time: 25-May-2012 16:47:16" +:+ newline)
           (" 1 0 0 0 1 0 0 0 1" +:+ newline)
           " 0.5 -2 3e0"
           ("delta_f: 0.000000e+00 0.000000e+00" +:+ newline)).
  - apply lookup_singleton_eq.
  - reflexivity.
  - reflexivity.
  - reflexivity.
  - number_row_tac.
  - number_row_tac.
Defined.

(** C5 as stated fails: a text whose [T:] line holds its three numbers but
    is not closed by a line break is rejected, since the end of that line is
    looked for with [index]. *)
Lemma load_calib_file_counterexample :
  calib_unterminated =
    ("R:" +:+ (" 1 0 0 0 1 0 0 0 1" +:+ newline) +:+ "T:" +:+ " 0 0 0")%string /\
  number_row (" 1 0 0 0 1 0 0 0 1" +:+ newline) [1; 0; 0; 0; 1; 0; 0; 0; 1]%R /\
  number_row " 0 0 0" [0; 0; 0]%R /\
  load_calib_file calib_unterminated_disk "/kitti" "calib.txt" = Raise ValueError.
Proof.
  split; [reflexivity|]. split; [number_row_tac|]. split; [number_row_tac|].
  assert (H : texts calib_unterminated_disk !! path_join2 "/kitti" "calib.txt"
              = Some calib_unterminated) by apply lookup_singleton_eq.
  unfold load_calib_file. rewrite H. reflexivity.
Qed.

(** ** KITTIRawPoses.get_calibrations *)

(** Compares two matrices or vectors of real expressions entry by entry. *)
Ltac entries_eq :=
  cbv - [Rplus Rmult Ropp Rminus Rinv Rdiv IZR];
  repeat match goal with
         | |- _ :: _ = _ :: _ => apply f_equal2
         | |- [] = [] => reflexivity
         end;
  lra.

(** The product is taken with the IMU-to-lidar matrix on the left. *)
Lemma get_calibrations_product (d : disk) (path : string) (a b : mat) :
  load_calib_file d path "calib_imu_to_velo.txt" = Ok a ->
  load_calib_file d path "calib_velo_to_cam.txt" = Ok b ->
  is_shapeb 4 4 a = true -> is_shapeb 4 4 b = true ->
  get_calibrations d path = Ok (mul a b).
Proof.
  intros Ha Hb Sa Sb. unfold get_calibrations. rewrite Ha, Hb. cbn [bind].
  unfold np_matmul.
  assert (Ra : nrows a = 4%nat).
  { unfold is_shapeb in Sa. apply andb_true_iff in Sa. destruct Sa as [Sa _].
    now apply Nat.eqb_eq in Sa. }
  assert (Rb : nrows b = 4%nat).
  { unfold is_shapeb in Sb. apply andb_true_iff in Sb. destruct Sb as [Sb _].
    now apply Nat.eqb_eq in Sb. }
  assert (Cb : ncols b = 4%nat).
  { destruct b as [|row b]; [discriminate|].
    unfold is_shapeb in Sb. cbn [forallb] in Sb.
    apply andb_true_iff in Sb. destruct Sb as [_ Sb].
    apply andb_true_iff in Sb. destruct Sb as [Sb _].
    now apply Nat.eqb_eq in Sb. }
  rewrite Ra, Rb, Cb, Sa, Sb. reflexivity.
Qed.

(** C2 on the rig: the matrix returned is Tr(imu->velo) * Tr(velo->cam). It
    differs from Tr(velo->cam) * Tr(imu->velo), and it sends the IMU origin
    to (0, 1, 0) where the camera sees that point at (1, 0, 0). *)
Theorem get_calibrations_order_on_rig :
  load_calib_file rig_disk "/kitti" "calib_imu_to_velo.txt" = Ok rig_imu_to_velo /\
  load_calib_file rig_disk "/kitti" "calib_velo_to_cam.txt" = Ok rig_velo_to_cam /\
  get_calibrations rig_disk "/kitti" = Ok (mul rig_imu_to_velo rig_velo_to_cam) /\
  mul rig_imu_to_velo rig_velo_to_cam <> mul rig_velo_to_cam rig_imu_to_velo /\
  apply (mul rig_imu_to_velo rig_velo_to_cam) [0; 0; 0; 1]%R = [0; 1; 0; 1]%R /\
  apply rig_velo_to_cam (apply rig_imu_to_velo [0; 0; 0; 1]%R) = [1; 0; 0; 1]%R /\
  apply (mul rig_velo_to_cam rig_imu_to_velo) [0; 0; 0; 1]%R = [1; 0; 0; 1]%R.
Proof.
  assert (Ha : load_calib_file rig_disk "/kitti" "calib_imu_to_velo.txt"
               = Ok rig_imu_to_velo).
  { apply (load_calib_file_parses rig_disk "/kitti" "calib_imu_to_velo.txt"
             "" (" 0 -1 0 1 0 0 0 0 1" +:+ newline) " 0 0 0" "").
    - apply lookup_insert_eq.
    - reflexivity.
    - reflexivity.
    - reflexivity.
    - number_row_tac.
    - number_row_tac. }
  assert (Hb : load_calib_file rig_disk "/kitti" "calib_velo_to_cam.txt"
               = Ok rig_velo_to_cam).
  { apply (load_calib_file_parses rig_disk "/kitti" "calib_velo_to_cam.txt"
             "" (" 1 0 0 0 1 0 0 0 1" +:+ newline) " 1 0 0" "").
    - cbn [texts rig_disk]. rewrite lookup_insert_ne by discriminate.
      apply lookup_singleton_eq.
    - reflexivity.
    - reflexivity.
    - reflexivity.
    - number_row_tac.
    - number_row_tac. }
  split; [exact Ha|]. split; [exact Hb|].
  split; [now apply get_calibrations_product|].
  split.
  - intros E. apply (f_equal (fun m => nth 3 (nth 0 m []) 0%R)) in E.
    cbv - [Rplus Rmult Ropp Rminus Rinv Rdiv IZR] in E. lra.
  - repeat split; entries_eq.
Qed.

(** ** 4x4 matrices *)

Local Open Scope R_scope.

Lemma row4_form (r : list R) :
  Nat.eqb (List.length r) 4 = true -> exists a b c d, r = [a; b; c; d].
Proof.
  destruct r as [|a [|b [|c [|d [|e r]]]]]; try discriminate.
  intros _. now exists a, b, c, d.
Qed.

Lemma mat4_form (m : mat) :
  is_shapeb 4 4 m = true ->
  exists a b c d e f g h i j k l p q r s,
    m = [[a; b; c; d]; [e; f; g; h]; [i; j; k; l]; [p; q; r; s]].
Proof.
  unfold is_shapeb. intros H. apply andb_true_iff in H. destruct H as [Hl Hr].
  destruct m as [|r1 [|r2 [|r3 [|r4 [|r5 m]]]]]; try discriminate.
  cbn [forallb] in Hr.
  repeat (apply andb_true_iff in Hr; destruct Hr as [? Hr]).
  destruct (row4_form r1) as (a & b & c & d & ->); [assumption|].
  destruct (row4_form r2) as (e & f & g & h & ->); [assumption|].
  destruct (row4_form r3) as (i & j & k & l & ->); [assumption|].
  destruct (row4_form r4) as (p & q & r & s & ->); [assumption|].
  now exists a, b, c, d, e, f, g, h, i, j, k, l, p, q, r, s.
Qed.

(** Names the sixteen entries of a matrix known to be 4x4. *)
Ltac entries_of m H :=
  let a := fresh "a" in let b := fresh "b" in let c := fresh "c" in
  let d := fresh "d" in let e := fresh "e" in let f := fresh "f" in
  let g := fresh "g" in let h := fresh "h" in let i := fresh "i" in
  let j := fresh "j" in let k := fresh "k" in let l := fresh "l" in
  let p := fresh "p" in let q := fresh "q" in let r := fresh "r" in
  let s := fresh "s" in
  destruct (mat4_form m H)
    as (a & b & c & d & e & f & g & h & i & j & k & l & p & q & r & s & ->);
  clear H.

(** Proves an equation between 4x4 matrices whose entries are polynomials. *)
Ltac mat_ring :=
  cbv - [Rplus Rmult Ropp Rminus Rinv Rdiv IZR];
  repeat match goal with
         | |- _ :: _ = _ :: _ => apply f_equal2
         | |- [] = [] => reflexivity
         end;
  ring.

Lemma mul_shape (a b : mat) :
  is_shapeb 4 4 a = true -> is_shapeb 4 4 b = true ->
  is_shapeb 4 4 (mul a b) = true.
Proof. intros Ha Hb. entries_of a Ha. entries_of b Hb. reflexivity. Qed.

Lemma np_matmul_44 (a b : mat) :
  is_shapeb 4 4 a = true -> is_shapeb 4 4 b = true ->
  np_matmul a b = Ok (mul a b).
Proof. intros Ha Hb. entries_of a Ha. entries_of b Hb. reflexivity. Qed.

Lemma mul_assoc (a b c : mat) :
  is_shapeb 4 4 a = true -> is_shapeb 4 4 b = true -> is_shapeb 4 4 c = true ->
  mul (mul a b) c = mul a (mul b c).
Proof.
  intros Ha Hb Hc. entries_of a Ha. entries_of b Hb. entries_of c Hc. mat_ring.
Qed.

Lemma mul_eye_l (a : mat) : is_shapeb 4 4 a = true -> mul (eye 4) a = a.
Proof. intros Ha. entries_of a Ha. mat_ring. Qed.

Lemma mul_eye_r (a : mat) : is_shapeb 4 4 a = true -> mul a (eye 4) = a.
Proof. intros Ha. entries_of a Ha. mat_ring. Qed.

Lemma det_mul (a b : mat) :
  is_shapeb 4 4 a = true -> is_shapeb 4 4 b = true ->
  det 4 (mul a b) = det 4 a * det 4 b.
Proof.
  intros Ha Hb. entries_of a Ha. entries_of b Hb.
  cbv - [Rplus Rmult Ropp Rminus Rinv Rdiv IZR]. ring.
Qed.

Lemma det_eye : det 4 (eye 4) = 1.
Proof. cbv - [Rplus Rmult Ropp Rminus Rinv Rdiv IZR]. ring. Qed.


(** A 4x4 matrix with non-zero determinant has an inverse on both sides,
    and [np.linalg.inv] returns it. *)
Lemma np_linalg_inv_spec (a : mat) :
  is_shapeb 4 4 a = true -> det 4 a <> 0 ->
  exists ai,
    np_linalg_inv a = Ok ai /\ is_shapeb 4 4 ai = true /\
    mul ai a = eye 4 /\ mul a ai = eye 4.
Proof.
  intros Ha Hd. entries_of a Ha. unfold np_linalg_inv.
  match goal with |- context [negb ?x] => change x with true end.
  cbn [negb nrows List.length].
  destruct (Req_EM_T _ 0) as [E | _]; [contradiction|].
  eexists. split; [reflexivity|].
  remember (det 4 _) as D eqn:HD in *.
  assert (Hu : D * / D = 1) by (now apply Rinv_r).
  unfold Rdiv. remember (/ D) as u eqn:Eu. clear Eu.
  rewrite HD in Hu. clear HD Hd D.
  cbv - [Rplus Rmult Ropp Rminus Rinv Rdiv IZR] in Hu.
  split; [reflexivity|].
  split;
    (cbv - [Rplus Rmult Ropp Rminus Rinv Rdiv IZR];
     repeat match goal with
            | |- _ :: _ = _ :: _ => apply f_equal2
            | |- [] = [] => reflexivity
            end;
     lazymatch goal with
     | |- _ = 0 => ring
     | |- _ = 1 => etransitivity; [|exact Hu]; ring
     end).
Qed.

Lemma det_inverse_nonzero (a x : mat) :
  is_shapeb 4 4 a = true -> is_shapeb 4 4 x = true ->
  mul x a = eye 4 -> det 4 a <> 0.
Proof.
  intros Ha Hx E Hz.
  pose proof (det_mul x a Hx Ha) as Hm.
  rewrite E, det_eye, Hz in Hm. lra.
Qed.

(** A left inverse of a 4x4 matrix is what [np.linalg.inv] returns. *)
Lemma np_linalg_inv_unique (a x : mat) :
  is_shapeb 4 4 a = true -> is_shapeb 4 4 x = true ->
  mul x a = eye 4 -> np_linalg_inv a = Ok x.
Proof.
  intros Ha Hx E.
  destruct (np_linalg_inv_spec a Ha (det_inverse_nonzero a x Ha Hx E))
    as (ai & Hinv & Hai & _ & Hr).
  rewrite Hinv. f_equal.
  rewrite <- (mul_eye_l ai Hai), <- E, (mul_assoc x a ai Hx Ha Hai), Hr.
  now apply mul_eye_r.
Qed.

(** What [get_calibrations] returns is a 4x4 matrix: each file is checked
    by the assertion that ends [load_calib_file]. *)
Lemma load_calib_file_shape (d : disk) (path file : string) (m : mat) :
  load_calib_file d path file = Ok m -> is_shapeb 4 4 m = true.
Proof.
  unfold load_calib_file. intros H.
  repeat match type of H with
         | bind ?r _ = Ok _ =>
             let E := fresh "E" in
             destruct r eqn:E; [cbn [bind] in H | discriminate]
         end.
  match type of H with
  | (if ?c then _ else _) = _ => destruct c eqn:Hc; [|discriminate]
  end.
  now injection H as <-.
Qed.

Lemma get_calibrations_shape (d : disk) (path : string) (T : mat) :
  get_calibrations d path = Ok T -> is_shapeb 4 4 T = true.
Proof.
  unfold get_calibrations. intros H.
  destruct (load_calib_file d path "calib_imu_to_velo.txt") as [a|] eqn:Ha;
    [|discriminate].
  destruct (load_calib_file d path "calib_velo_to_cam.txt") as [b|] eqn:Hb;
    [|discriminate].
  cbn [bind] in H.
  apply load_calib_file_shape in Ha. apply load_calib_file_shape in Hb.
  rewrite (np_matmul_44 a b Ha Hb) in H. cbn [bind] in H.
  injection H as <-. now apply mul_shape.
Qed.

(** ** KITTIRawPoses.get_gps_pose and get_cam_poses *)

(** A GPS pose is a 4x4 matrix of determinant 1: a rotation and a shift. *)
Lemma get_gps_pose_spec (gps_data : list R) :
  (6 <= List.length gps_data)%nat ->
  exists pose,
    get_gps_pose gps_data = Ok pose /\ is_shapeb 4 4 pose = true /\
    det 4 pose = 1.
Proof.
  destruct gps_data as [|lat [|lon [|alt [|roll [|pitch [|yaw rest]]]]]];
    cbn [List.length]; intros Hlen; try lia.
  unfold get_gps_pose.
  destruct (gps_to_ecef lat lon alt) as [[x y] z].
  unfold from_euler_xyz, rot_x, rot_y, rot_z.
  pose proof (sin2_cos2 roll) as H1. pose proof (sin2_cos2 pitch) as H2.
  pose proof (sin2_cos2 yaw) as H3. unfold Rsqr in *.
  remember (sin roll) as sr eqn:E1. remember (cos roll) as cr eqn:E2.
  remember (sin pitch) as sp eqn:E3. remember (cos pitch) as cp eqn:E4.
  remember (sin yaw) as sy eqn:E5. remember (cos yaw) as cy eqn:E6.
  clear E1 E2 E3 E4 E5 E6.
  eexists. split; [reflexivity|]. split; [reflexivity|].
  cbv - [Rplus Rmult Ropp Rminus Rinv Rdiv IZR].
  transitivity ((sr * sr + cr * cr) * (sp * sp + cp * cp) * (sy * sy + cy * cy));
    [ring | rewrite H1, H2, H3; ring].
Qed.

Lemma mapM_ok {A B : Type} (f : A -> result B) (g : A -> B) (l : list A) :
  Forall (fun x => f x = Ok (g x)) l -> mapM f l = Ok (map g l).
Proof.
  induction 1 as [|x l Hx _ IH]; [reflexivity|].
  cbn [mapM map]. rewrite Hx, IH. reflexivity.
Qed.

(** The poses read from a sequence of GPS records. *)
Lemma gps_poses_spec (oxts : list (list R)) :
  Forall (fun g => (6 <= List.length g)%nat) oxts ->
  exists gps,
    mapM get_gps_pose oxts = Ok gps /\ List.length gps = List.length oxts /\
    Forall (fun p => is_shapeb 4 4 p = true /\ det 4 p = 1) gps.
Proof.
  induction 1 as [|g oxts Hg _ IH].
  - exists []. repeat split. constructor.
  - destruct IH as (gps & Hm & Hl & Hall).
    destruct (get_gps_pose_spec g Hg) as (p & Hp & Hs & Hd).
    exists (p :: gps). cbn [mapM]. rewrite Hp, Hm. cbn [bind List.length].
    repeat split; [now rewrite Hl | now constructor].
Qed.

(** Without [zero_origin], the poses are the GPS poses times the
    calibration matrix: 4x4 and invertible when the calibration is. *)
Lemma get_cam_poses_plain (oxts : list (list R)) (T : mat) :
  oxts <> [] ->
  Forall (fun g => (6 <= List.length g)%nat) oxts ->
  is_shapeb 4 4 T = true -> det 4 T <> 0 ->
  exists gps poses,
    mapM get_gps_pose oxts = Ok gps /\ gps <> [] /\
    mapM (fun pose => np_matmul pose T) gps = Ok poses /\
    poses <> [] /\
    get_cam_poses oxts T false = Ok poses /\
    Forall (fun p => is_shapeb 4 4 p = true /\ det 4 p <> 0) poses.
Proof.
  intros Hne Hall HT HdT.
  destruct (gps_poses_spec oxts Hall) as (gps & Hm & Hl & Hgps).
  assert (Hgne : gps <> []).
  { destruct gps; [|discriminate]. destruct oxts; [congruence | discriminate]. }
  assert (Hmul : mapM (fun pose => np_matmul pose T) gps
                 = Ok (map (fun p => mul p T) gps)).
  { apply mapM_ok. eapply Forall_impl; [exact Hgps|].
    intros p [Hp _]. now apply np_matmul_44. }
  exists gps, (map (fun p => mul p T) gps).
  split; [exact Hm|]. split; [exact Hgne|]. split; [exact Hmul|].
  split; [destruct gps; [congruence | discriminate]|].
  split.
  - unfold get_cam_poses. rewrite Hm. cbn [bind].
    destruct gps as [|g0 gps']; [congruence|]. rewrite Hmul. reflexivity.
  - apply Forall_map. eapply Forall_impl; [exact Hgps|].
    intros p [Hp Hd]. unfold compose. split; [now apply mul_shape|].
    rewrite (det_mul p T Hp HT), Hd. lra.
Qed.

(** The transform between two invertible 4x4 frames. *)
Lemma relative_pose_spec (a b : mat) :
  is_shapeb 4 4 a = true -> det 4 a <> 0 -> is_shapeb 4 4 b = true ->
  exists ai, np_linalg_inv a = Ok ai /\ is_shapeb 4 4 ai = true /\
             mul ai a = eye 4 /\ relative_pose a b = Ok (mul ai b).
Proof.
  intros Ha Hd Hb.
  destruct (np_linalg_inv_spec a Ha Hd) as (ai & Hinv & Hai & Hl & _).
  exists ai. repeat split; try assumption.
  unfold relative_pose. rewrite Hinv. cbn [bind]. now apply np_matmul_44.
Qed.

(** C10. With [zero_origin=True] on a non-empty sequence, every pose is
    multiplied on the left by the inverse of the first pose: the first pose
    returned is the identity, and the transform between any two frames is
    the one between the same frames without [zero_origin]. *)
Theorem get_cam_poses_zero_origin (oxts : list (list R)) (T : mat) :
  oxts <> [] ->
  Forall (fun g => (6 <= List.length g)%nat) oxts ->
  is_shapeb 4 4 T = true -> det 4 T <> 0 ->
  exists poses zeroed first Tr_inv,
    get_cam_poses oxts T false = Ok poses /\
    get_cam_poses oxts T true = Ok zeroed /\
    poses !! 0%nat = Some first /\
    np_linalg_inv first = Ok Tr_inv /\
    zeroed = map (mul Tr_inv) poses /\
    zeroed !! 0%nat = Some (eye 4) /\
    forall (i j : nat) (pi pj qi qj : mat),
      poses !! i = Some pi -> poses !! j = Some pj ->
      zeroed !! i = Some qi -> zeroed !! j = Some qj ->
      exists rel, relative_pose pi pj = Ok rel /\ relative_pose qi qj = Ok rel.
Proof.
  intros Hne Hall HT HdT.
  destruct (get_cam_poses_plain oxts T Hne Hall HT HdT)
    as (gps & poses & Hgps & Hgne & Hmul & Hpne & Hplain & Hwf).
  destruct poses as [|first rest] eqn:Eposes; [congruence|]. rewrite <- Eposes in *.
  assert (Hfirst : poses !! 0%nat = Some first) by (now rewrite Eposes).
  assert (Hin : forall k p, poses !! k = Some p ->
                            is_shapeb 4 4 p = true /\ det 4 p <> 0).
  { intros k p Hk. rewrite Forall_forall in Hwf. apply Hwf.
    eapply list_elem_of_lookup_2. exact Hk. }
  destruct (Hin _ _ Hfirst) as [Hf Hdf].
  destruct (np_linalg_inv_spec first Hf Hdf) as (Tr_inv & Hinv & Hti & Hl & Hr).
  assert (Hzero : mapM (fun pose => np_matmul Tr_inv pose) poses
                  = Ok (map (mul Tr_inv) poses)).
  { apply mapM_ok. eapply Forall_impl; [exact Hwf|].
    intros p [Hp _]. now apply np_matmul_44. }
  exists poses, (map (mul Tr_inv) poses), first, Tr_inv.
  split; [exact Hplain|]. split.
  { unfold get_cam_poses. rewrite Hgps. cbn [bind].
    destruct gps as [|g0 gps']; [congruence|]. rewrite Hmul. cbn [bind].
    rewrite Hfirst. cbn [of_option bind]. rewrite Hinv. cbn [bind]. exact Hzero. }
  split; [exact Hfirst|]. split; [exact Hinv|]. split; [reflexivity|].
  split; [now rewrite list_lookup_fmap, Hfirst; cbn; rewrite Hl|].
  intros i j pi pj qi qj Hi Hj Hqi Hqj.
  rewrite list_lookup_fmap, Hi in Hqi. rewrite list_lookup_fmap, Hj in Hqj.
  cbn in Hqi, Hqj. injection Hqi as <-. injection Hqj as <-.
  destruct (Hin _ _ Hi) as [Hpi Hdi]. destruct (Hin _ _ Hj) as [Hpj _].
  destruct (relative_pose_spec pi pj Hpi Hdi Hpj) as (pinv & Hpinv & Hps & Hpl & Hrel).
  exists (mul pinv pj). split; [exact Hrel|].
  (* the inverse of the shifted frame is [pinv * first] *)
  assert (Hx : np_linalg_inv (mul Tr_inv pi) = Ok (mul pinv first)).
  { apply np_linalg_inv_unique; try (now apply mul_shape).
    rewrite (mul_assoc pinv first (mul Tr_inv pi)) by (try assumption; now apply mul_shape).
    rewrite <- (mul_assoc first Tr_inv pi) by assumption.
    rewrite Hr, (mul_eye_l pi Hpi). exact Hpl. }
  unfold relative_pose. rewrite Hx. cbn [bind].
  rewrite np_matmul_44 by (now apply mul_shape). f_equal.
  rewrite (mul_assoc pinv first (mul Tr_inv pj)) by (try assumption; now apply mul_shape).
  rewrite <- (mul_assoc first Tr_inv pj) by assumption.
  now rewrite Hr, (mul_eye_l pj Hpj).
Qed.

Lemma get_cam_poses_zero_origin_witness :
  exists zeroed,
    get_cam_poses two_records rig_velo_to_cam true = Ok zeroed /\
    zeroed !! 0%nat = Some (eye 4).
Proof.
  destruct (get_cam_poses_zero_origin two_records rig_velo_to_cam)
    as (poses & zeroed & first & Tr_inv & _ & Hz & _ & _ & _ & Hid & _).
  - discriminate.
  - repeat constructor.
  - reflexivity.
  - cbv - [Rplus Rmult Ropp Rminus Rinv Rdiv IZR]. lra.
  - exists zeroed. split; assumption.
Defined.

(** ** Dataset.__getitem__ *)

Lemma set_block33_embeds (K : mat) :
  is_shapeb 3 3 K = true ->
  exists m, set_block33 (eye 4) K = Ok m /\ is_shapeb 4 4 m = true /\ embeds K m.
Proof.
  intros HK. unfold set_block33. rewrite HK.
  eexists. split; [reflexivity|]. split; [reflexivity|].
  intros i j Hi Hj.
  destruct i as [|[|[|[|i]]]]; try lia;
    destruct j as [|[|[|[|j]]]]; try lia; reflexivity.
Qed.

Lemma shape_batched_mat (m : mat) :
  is_shapeb 4 4 m = true ->
  shape (expand (expand (nd_of_mat m))) = [1; 1; 4; 4]%nat.
Proof. intros H. entries_of m H. reflexivity. Qed.

Lemma reshape2_33 (flat : list R) :
  List.length flat = 9%nat ->
  exists K, reshape2 3 3 flat = Ok K /\ is_shapeb 3 3 K = true.
Proof.
  intros H.
  destruct flat as [|a [|b [|c [|d [|e [|f [|g [|h [|i [|j flat]]]]]]]]]];
    try discriminate.
  eexists. split; reflexivity.
Qed.

(** C6, as the code has it. For an id of the data set whose colour image
    and camera matrix are on disk, whose depth image passes the 16-bit guard
    of [get_depth] and which has a 4x4 pose, [__getitem__] returns four
    float32 tensors [colors, depths, intrinsics, poses], each with two
    leading axes of extent 1; [intrinsics] is the camera matrix set into the
    top-left block of the 4x4 identity, and both [intrinsics] and [poses]
    have shape (1, 1, 4, 4). *)
Theorem Dataset_getitem_tensors (d : disk) (self : Dataset) (item : Z)
    (rgb : list (list (list Z))) (flat : list R) (depth : list (list Z))
    (pose : mat) :
  mem item (Dataset_ids self) = true ->
  colour d !! rgb_file (ds_depths self) item = Some rgb ->
  numbers d !! intrinsics_file (ds_depths self) item = Some flat ->
  List.length flat = 9%nat ->
  grey d !! depth_file (ds_depths self) item true = Some depth ->
  rectangular depth ->
  (exists v, In v (concat depth) /\ (255 < v)%Z) ->
  (0 <= item < Z.of_nat (List.length (raw_ts (ds_poses self))))%Z ->
  raw_poses (ds_poses self) !! Z.to_nat item = Some pose ->
  is_shapeb 4 4 pose = true ->
  exists K intrinsics : mat,
    reshape2 3 3 flat = Ok K /\ embeds K intrinsics /\
    Dataset_getitem d self item =
      Ok [as_tensor float32 (expand (expand (nd_map IZR (nd_of_cube rgb))));
          as_tensor float32
            (expand (expand (nd_map IZR (nd_of_cube (map (map (fun v => [v])) depth)))));
          as_tensor float32 (expand (expand (nd_of_mat intrinsics)));
          as_tensor float32 (expand (expand (nd_of_mat pose)))] /\
    shape (expand (expand (nd_of_mat intrinsics))) = [1; 1; 4; 4]%nat /\
    shape (expand (expand (nd_of_mat pose))) = [1; 1; 4; 4]%nat.
Proof.
  intros Hmem Hrgb Hnum Hlen Hdepth Hrect Hbig Hrange Hpose Hshape.
  destruct (reshape2_33 flat Hlen) as (K & HK & HKs).
  destruct (set_block33_embeds K HKs) as (intr & Hintr & Hintrs & Hemb).
  exists K, intr.
  split; [exact HK|]. split; [exact Hemb|]. split.
  - unfold Dataset_getitem. rewrite Hmem. cbn [negb].
    unfold KITTIDepthSelection_getitem. unfold Dataset_ids in Hmem.
    rewrite Hmem. cbn [negb].
    unfold get_intrinsics. rewrite Hnum. cbn [of_option bind]. rewrite HK.
    cbn [bind]. unfold get_rgb. rewrite Hrgb. cbn [of_option bind].
    unfold get_depth. rewrite Hdepth. cbn [of_option bind].
    rewrite (get_depth_of_guarded depth false Hrect Hbig). cbn [bind].
    unfold KITTIRawPoses_getitem.
    destruct (Z.leb_spec 0 item); [|lia].
    destruct (Z.ltb_spec item (Z.of_nat (List.length (raw_ts (ds_poses self)))));
      [|lia].
    cbn [andb negb]. rewrite Hpose. cbn [of_option bind].
    rewrite Hintr. reflexivity.
  - split; now apply shape_batched_mat.
Qed.

Lemma Dataset_getitem_tensors_witness :
  exists colors depths intrinsics poses,
    Dataset_getitem far_dataset_disk single_frame 0 =
      Ok [colors; depths; intrinsics; poses] /\
    Forall (fun t => dtype t = float32) [colors; depths; intrinsics; poses] /\
    shape (data colors) = [1; 1; 2; 2; 3]%nat /\
    shape (data depths) = [1; 1; 2; 2; 1]%nat /\
    shape (data intrinsics) = [1; 1; 4; 4]%nat /\
    shape (data poses) = [1; 1; 4; 4]%nat.
Proof.
  destruct (Dataset_getitem_tensors far_dataset_disk single_frame 0
              [[[1; 2; 3]; [4; 5; 6]]; [[7; 8; 9]; [10; 11; 12]]]%Z
              [721; 0; 609; 0; 721; 172; 0; 0; 1]
              [[0; 256]; [512; 300]]%Z (eye 4))
    as (K & intr & HK & Hemb & Hget & Hs1 & Hs2).
  - reflexivity.
  - apply lookup_singleton_eq.
  - apply lookup_singleton_eq.
  - reflexivity.
  - apply lookup_singleton_eq.
  - split; [reflexivity|]. repeat constructor.
  - exists 256%Z. split; [simpl; tauto | lia].
  - cbn. lia.
  - reflexivity.
  - reflexivity.
  - do 4 eexists. split; [exact Hget|].
    split; [repeat constructor|].
    split; [reflexivity|]. split; [reflexivity|].
    split; [exact Hs1 | exact Hs2].
Defined.

(** C6 as stated fails: frame 0 is an id of the data set and all its files
    are in place, but its depths are below one metre, so the guard of
    [get_depth] stops [__getitem__]. *)
Lemma Dataset_getitem_counterexample :
  mem 0 (Dataset_ids single_frame) = true /\
  Dataset_getitem near_dataset_disk single_frame 0 = Raise AssertionError.
Proof.
  split; [reflexivity|].
  assert (H1 : numbers near_dataset_disk !! intrinsics_file near_selection 0
               = Some [721; 0; 609; 0; 721; 172; 0; 0; 1])
    by apply lookup_singleton_eq.
  assert (H2 : colour near_dataset_disk !! rgb_file near_selection 0
               = Some [[[1; 2; 3]; [4; 5; 6]]; [[7; 8; 9]; [10; 11; 12]]]%Z)
    by apply lookup_singleton_eq.
  assert (H3 : grey near_dataset_disk !! depth_file near_selection 0 true
               = Some [[100; 0]; [255; 17]]%Z)
    by apply lookup_singleton_eq.
  unfold Dataset_getitem, KITTIDepthSelection_getitem, get_intrinsics, get_rgb,
    get_depth.
  change (ds_depths single_frame) with near_selection.
  change (mem 0 (Dataset_ids single_frame)) with true.
  change (mem 0 (sel_ids near_selection)) with true. cbn [negb].
  rewrite H1, H2, H3. reflexivity.
Qed.

(** * Further properties *)

Local Open Scope Z_scope.

(** ** convert_img_label and the ['%010d'] format *)

Lemma str_int_nonneg (n : Z) : 0 <= n -> Py.str (Py.Int n) = Py.str_nonneg n.
Proof.
  intros Hn. unfold Py.str, Py.str_int.
  destruct (Z.ltb_spec n 0); [lia | reflexivity].
Qed.

Lemma slice_default (k : nat) :
  (1 <= k)%nat ->
  Py.slice_to "0000000000" (- Z.of_nat k) = Py.replicate (10 - k) "0"%char.
Proof.
  intros Hk. destruct (le_lt_dec k 10) as [Hle | Hgt].
  - apply slice_default_short. lia.
  - rewrite slice_default_long by lia.
    replace (10 - k)%nat with 0%nat by lia. reflexivity.
Qed.

Lemma label_is_format (n : Z) :
  0 <= n -> convert_img_label (Py.Int n) = fmt_010d n.
Proof.
  intros Hn. unfold convert_img_label, fmt_010d, Py.len.
  rewrite (str_int_nonneg n Hn).
  destruct (Z.ltb_spec n 0); [lia|].
  destruct (PyFacts.str_nonneg_spec n Hn) as (H1 & _).
  now rewrite slice_default.
Qed.

(** X1. For a nonnegative integer, [convert_img_label] writes what the
    loaders' ['%010d'] format writes: the names [complete_sequence] saves
    under are the names a KITTI loader asks for. *)
Theorem convert_img_label_is_format (n : Z) :
  0 <= n -> convert_img_label (Py.Int n) = fmt_010d n.
Proof. exact (label_is_format n). Qed.

Lemma convert_img_label_is_format_witness :
  convert_img_label (Py.Int 123) = fmt_010d 123 /\
  fmt_010d 123 = "0000000123"%string.
Proof.
  split; [apply (convert_img_label_is_format 123); lia | reflexivity].
Defined.

(** For a negative integer the two differ: the label pads in front of the
    sign, the format behind it. *)
Lemma label_and_format_of_negative :
  convert_img_label (Py.Int (-5)) = "00000000-5"%string /\
  fmt_010d (-5) = "-000000005"%string.
Proof. split; reflexivity. Qed.

Lemma label_value (n : Z) :
  0 <= n -> Py.int_of_str (convert_img_label (Py.Int n)) = Some n.
Proof.
  intros Hn. rewrite (label_is_format n Hn). unfold fmt_010d.
  destruct (Z.ltb_spec n 0); [lia|].
  destruct (PyFacts.str_nonneg_spec n Hn) as (H1 & _ & _ & Hint).
  unfold Py.int_of_str in *.
  destruct (Py.str_nonneg n) as [|c s] eqn:Es; [discriminate|].
  destruct (_ +:+ String c s)%string as [|c' s'] eqn:Ea.
  - apply (f_equal String.length) in Ea.
    rewrite PyFacts.length_app in Ea. simpl in Ea. lia.
  - rewrite <- Ea, PyFacts.int_rec_app, PyFacts.int_rec_zeros. exact Hint.
Qed.

(** X2. Distinct nonnegative frame ids get distinct labels, whatever their
    number of digits: no two frames of a sequence share a file name. *)
Theorem convert_img_label_injective (n m : Z) :
  0 <= n -> 0 <= m ->
  convert_img_label (Py.Int n) = convert_img_label (Py.Int m) -> n = m.
Proof.
  intros Hn Hm E.
  pose proof (label_value n Hn) as Vn. pose proof (label_value m Hm) as Vm.
  rewrite E in Vn. congruence.
Qed.

Lemma convert_img_label_injective_witness :
  convert_img_label (Py.Int 7) <> convert_img_label (Py.Int 12345678907).
Proof.
  intros E. apply (convert_img_label_injective 7 12345678907) in E; lia.
Defined.

(** ** complete_sequence: the folders *)

Lemma make_folders_result (subfolders : list string) : forall d path d' path',
  make_folders d path subfolders = Ok (d', path') ->
  path' = path_join path subfolders /\
  grey d' = grey d /\ colour d' = colour d /\ numbers d' = numbers d /\
  texts d' = texts d /\ dirs d ⊆ dirs d' /\
  (subfolders <> [] -> path' ∈ dirs d').
Proof.
  induction subfolders as [|sub rest IH]; intros d path d' path' H.
  - cbn [make_folders] in H. injection H as <- <-.
    repeat split; try reflexivity. congruence.
  - cbn [make_folders] in H. unfold path_join. cbn [fold_left].
    set (p1 := path_join2 path sub) in *.
    assert (Hstep : exists d1,
      (if os_path_isdir d p1 then Ok d else os_mkdir d p1) = Ok d1 /\
      grey d1 = grey d /\ colour d1 = colour d /\ numbers d1 = numbers d /\
      texts d1 = texts d /\ dirs d ⊆ dirs d1 /\ p1 ∈ dirs d1).
    { destruct (os_path_isdir d p1) eqn:Hdir.
      - exists d. repeat split; try reflexivity.
        unfold os_path_isdir in Hdir. now apply bool_decide_eq_true_1 in Hdir.
      - unfold os_mkdir in *. destruct (os_path_exists d p1); [discriminate|].
        eexists. split; [reflexivity|]. cbn [grey colour numbers texts dirs].
        repeat split; try reflexivity.
        + apply union_subseteq_r.
        + apply elem_of_union_l. now apply elem_of_singleton. }
    destruct Hstep as (d1 & E1 & G & C & N & T & D & P1). rewrite E1 in H.
    cbn [bind] in H. apply IH in H.
    destruct H as (-> & G' & C' & N' & T' & D' & Hlast).
    repeat split; try congruence; [etransitivity; eassumption|].
    intros _. destruct rest as [|r rest'].
    + unfold path_join. cbn [fold_left]. now apply D'.
    + apply Hlast. discriminate.
Qed.

(** ** complete_sequence: one item *)

Lemma image_save_inv (d d' : disk) (p : string) (img : list (list Z)) :
  image_save d p img = Ok d' ->
  os_path_isdir d p = false /\
  grey d' = <[ p := img ]> (grey d) /\ colour d' = delete p (colour d) /\
  numbers d' = delete p (numbers d) /\ texts d' = delete p (texts d) /\
  dirs d' = dirs d.
Proof.
  unfold image_save. destruct (os_path_isdir d p); [discriminate|].
  intros [= <-]. repeat split.
Qed.

Lemma os_remove_inv (d d' : disk) (p : string) :
  os_remove d p = Ok d' ->
  grey d' = delete p (grey d) /\ colour d' = delete p (colour d) /\
  numbers d' = delete p (numbers d) /\ texts d' = delete p (texts d) /\
  dirs d' = dirs d.
Proof.
  unfold os_remove. destruct (os_path_isdir d p); [discriminate|].
  destruct (is_file d p); [|discriminate].
  intros [= <-]. repeat split.
Qed.

(** What a turn of the loop that returns has done: skipped the item, or
    fetched it, called the network and saved. *)
Lemma complete_item_inv (model : nd Q -> nd Q -> result (nd Q)) (ds : dataset)
    (path : string) (replace : bool) (w w' : world) (i : nat) :
  complete_item model ds path replace w i = Ok w' ->
  exists ip,
    img_path_of ds path i = Ok ip /\
    ((os_path_exists (files w) ip = true /\ replace = false /\ w' = w) \/
     (exists d colors depths intrinsics poses pred pix,
        (os_path_exists (files w) ip = false \/ replace = true) /\
        (if os_path_exists (files w) ip && replace
         then os_remove (files w) ip else Ok (files w)) = Ok d /\
        ds_item ds i = Ok (colors, depths, intrinsics, poses) /\
        model depths (validity_mask depths) = Ok pred /\
        gradslam_pixels pred = Ok pix /\
        image_save d ip pix = Ok (files w') /\
        calls w' = calls w ++ [(depths, validity_mask depths)])).
Proof.
  unfold complete_item. intros H.
  destruct (img_path_of ds path i) as [ip|]; [|discriminate].
  exists ip. split; [reflexivity|]. cbn [bind] in H.
  destruct (os_path_exists (files w) ip && negb replace) eqn:Hskip.
  - left. apply andb_true_iff in Hskip. destruct Hskip as [He Hr].
    apply negb_true_iff in Hr. injection H as <-. auto.
  - right.
    destruct (if os_path_exists (files w) ip && replace
              then os_remove (files w) ip else Ok (files w)) as [d|] eqn:Hd;
      [|discriminate].
    cbn [bind] in H.
    destruct (ds_item ds i) as [[[[colors depths] intrinsics] poses]|] eqn:Hi;
      [|discriminate].
    cbn [bind] in H.
    destruct (model depths (validity_mask depths)) as [pred|] eqn:Hm;
      [|discriminate].
    cbn [bind] in H. unfold save_gradslam_image in H.
    destruct (gradslam_pixels pred) as [pix|] eqn:Hp; [|discriminate].
    cbn [bind] in H.
    destruct (image_save d ip pix) as [d'|] eqn:Hs; [|discriminate].
    cbn [bind] in H. injection H as <-.
    exists d, colors, depths, intrinsics, poses, pred, pix.
    repeat split; try assumption; try reflexivity.
    apply andb_false_iff in Hskip. destruct Hskip as [He | Hr]; [now left|].
    right. now apply negb_false_iff in Hr.
Qed.

Lemma complete_item_dirs (model : nd Q -> nd Q -> result (nd Q)) (ds : dataset)
    (path : string) (replace : bool) (w w' : world) (i : nat) :
  complete_item model ds path replace w i = Ok w' ->
  dirs (files w') = dirs (files w).
Proof.
  intros H. apply complete_item_inv in H.
  destruct H as (ip & _ & [(_ & _ & ->) | H]); [reflexivity|].
  destruct H as (d & c & dp & k & po & pred & pix & _ & Hd & _ & _ & _ & Hs & _).
  apply image_save_inv in Hs. destruct Hs as (_ & _ & _ & _ & _ & ->).
  destruct (os_path_exists (files w) ip && replace).
  - apply os_remove_inv in Hd. now destruct Hd as (_ & _ & _ & _ & ->).
  - now injection Hd as <-.
Qed.

(** ** complete_sequence: the whole run *)

Lemma for_each_dirs (model : nd Q -> nd Q -> result (nd Q)) (ds : dataset)
    (path : string) (replace : bool) (l : list nat) (w w' : world) :
  for_each (complete_item model ds path replace) w l = Ok w' ->
  dirs (files w') = dirs (files w).
Proof.
  intros H.
  refine (for_each_keeps _ (fun s => dirs (files s) = dirs (files w)) _ _ _ _ H _);
    [|reflexivity].
  intros s i s' Hstep Hs. now rewrite (complete_item_dirs _ _ _ _ _ _ _ Hstep).
Qed.

(** X3. When [complete_sequence] runs to its end, the folder
    [path_to_save/subseq/proj_depth/prediction/image_0x] is a directory
    ([image_02] for the left camera, [image_03] for any other). *)
Theorem complete_sequence_makes_folder (model : nd Q -> nd Q -> result (nd Q))
    (ds : dataset) (path_to_save subseq camera : string) (replace : bool)
    (w w' : world) :
  complete_sequence model ds path_to_save subseq camera replace w = Ok w' ->
  os_path_isdir (files w')
    (path_join path_to_save
       [subseq; "proj_depth"; "prediction";
        if String.eqb camera "left" then "image_02" else "image_03"]%string) = true.
Proof.
  unfold complete_sequence. intros H.
  destruct (make_folders _ _ _) as [[d path]|] eqn:Hmk; [|discriminate].
  cbn [bind] in H. apply make_folders_result in Hmk.
  destruct Hmk as (-> & _ & _ & _ & _ & _ & Hlast).
  apply for_each_dirs in H. cbn [files] in H.
  unfold os_path_isdir. apply bool_decide_eq_true_2. rewrite H.
  apply Hlast. discriminate.
Qed.

Lemma complete_sequence_makes_folder_witness :
  exists w',
    complete_sequence echo_model two_frames "out" "drive" "left" false half_done
      = Ok w' /\
    os_path_isdir (files w') "out/drive/proj_depth/prediction/image_02" = true.
Proof.
  destruct (complete_sequence echo_model two_frames "out" "drive" "left" false
              half_done) as [w'|e] eqn:E.
  - exists w'. split; [reflexivity|].
    exact (complete_sequence_makes_folder _ _ _ _ _ _ _ _ E).
  - exfalso. vm_compute in E. discriminate.
Defined.

(** X4. When the name of the first sub-folder is taken by a file,
    [complete_sequence] stops with [FileExistsError] before any item. *)
Theorem complete_sequence_folder_taken (model : nd Q -> nd Q -> result (nd Q))
    (ds : dataset) (path_to_save subseq camera : string) (replace : bool)
    (w : world) :
  os_path_exists (files w) (path_join2 path_to_save subseq) = true ->
  os_path_isdir (files w) (path_join2 path_to_save subseq) = false ->
  complete_sequence model ds path_to_save subseq camera replace w
    = Raise FileExistsError.
Proof.
  intros Hex Hdir. unfold complete_sequence. cbn [make_folders].
  rewrite Hdir. unfold os_mkdir. rewrite Hex. reflexivity.
Qed.

Lemma complete_sequence_folder_taken_witness :
  complete_sequence echo_model two_frames "out" "0000000005.png" "left" true
    half_done = Raise FileExistsError.
Proof.
  apply complete_sequence_folder_taken; reflexivity.
Defined.

Lemma exists_same_views (d d' : disk) (q : string) :
  grey d' !! q = grey d !! q -> colour d' !! q = colour d !! q ->
  numbers d' !! q = numbers d !! q -> texts d' !! q = texts d !! q ->
  dirs d' = dirs d ->
  os_path_exists d' q = os_path_exists d q.
Proof.
  intros G C N T D. unfold os_path_exists, is_file, os_path_isdir.
  now rewrite G, C, N, T, D.
Qed.

(** With [replace] off, a turn of the loop leaves every existing path as it
    is, and leaves its own target in existence. *)
Lemma complete_item_keeps_path (model : nd Q -> nd Q -> result (nd Q))
    (ds : dataset) (path : string) (w w' : world) (i : nat) (q : string) :
  complete_item model ds path false w i = Ok w' ->
  os_path_exists (files w) q = true ->
  grey (files w') !! q = grey (files w) !! q /\
  colour (files w') !! q = colour (files w) !! q /\
  numbers (files w') !! q = numbers (files w) !! q /\
  texts (files w') !! q = texts (files w) !! q /\
  os_path_exists (files w') q = true.
Proof.
  intros H Hq. apply complete_item_inv in H.
  destruct H as (ip & _ & [(_ & _ & ->) | H]); [auto|].
  destruct H as (d & c & dp & k & po & pred & pix & Hcase & Hd & _ & _ & _ & Hs & _).
  destruct Hcase as [Hex | ?]; [|discriminate].
  rewrite andb_false_r in Hd. injection Hd as <-.
  apply image_save_inv in Hs. destruct Hs as (_ & G & C & N & T & D).
  assert (Hne : ip <> q) by (intros ->; congruence).
  assert (G' : grey (files w') !! q = grey (files w) !! q)
    by (rewrite G; now apply lookup_insert_ne).
  assert (C' : colour (files w') !! q = colour (files w) !! q)
    by (rewrite C; now apply lookup_delete_ne).
  assert (N' : numbers (files w') !! q = numbers (files w) !! q)
    by (rewrite N; now apply lookup_delete_ne).
  assert (T' : texts (files w') !! q = texts (files w) !! q)
    by (rewrite T; now apply lookup_delete_ne).
  repeat split; try assumption.
  now rewrite (exists_same_views _ _ q G' C' N' T' D).
Qed.

Lemma complete_item_target (model : nd Q -> nd Q -> result (nd Q))
    (ds : dataset) (path : string) (replace : bool) (w w' : world) (i : nat) :
  complete_item model ds path replace w i = Ok w' ->
  exists ip, img_path_of ds path i = Ok ip /\
             os_path_exists (files w') ip = true.
Proof.
  intros H. apply complete_item_inv in H.
  destruct H as (ip & Hip & [(Hex & _ & ->) | H]); [now exists ip|].
  destruct H as (d & c & dp & k & po & pred & pix & _ & _ & _ & _ & _ & Hs & _).
  exists ip. split; [exact Hip|].
  apply image_save_inv in Hs. destruct Hs as (_ & G & _).
  apply (grey_exists _ _ pix). rewrite G. apply lookup_insert_eq.
Qed.

(** X5. When [complete_sequence] runs to its end with [replace] off, every
    path that existed before reads as before: no image, text or array on
    disk is overwritten or removed. *)
Theorem complete_sequence_keeps_paths (model : nd Q -> nd Q -> result (nd Q))
    (ds : dataset) (path_to_save subseq camera : string) (w w' : world)
    (q : string) :
  complete_sequence model ds path_to_save subseq camera false w = Ok w' ->
  os_path_exists (files w) q = true ->
  grey (files w') !! q = grey (files w) !! q /\
  colour (files w') !! q = colour (files w) !! q /\
  numbers (files w') !! q = numbers (files w) !! q /\
  texts (files w') !! q = texts (files w) !! q.
Proof.
  unfold complete_sequence. intros H Hq.
  destruct (make_folders _ _ _) as [[d path]|] eqn:Hmk; [|discriminate].
  cbn [bind] in H. apply make_folders_result in Hmk.
  destruct Hmk as (_ & G & C & N & T & D & _).
  set (P := fun s : world =>
    grey (files s) !! q = grey (files w) !! q /\
    colour (files s) !! q = colour (files w) !! q /\
    numbers (files s) !! q = numbers (files w) !! q /\
    texts (files s) !! q = texts (files w) !! q /\
    os_path_exists (files s) q = true).
  assert (HP : P w').
  { refine (for_each_keeps _ P _ _ _ _ H _).
    - intros s i s' Hstep (G1 & C1 & N1 & T1 & E1).
      destruct (complete_item_keeps_path _ _ _ _ _ _ q Hstep E1)
        as (G2 & C2 & N2 & T2 & E2).
      unfold P. repeat split; congruence.
    - unfold P. cbn [files]. rewrite G, C, N, T.
      repeat split; try reflexivity.
      unfold os_path_exists, is_file, os_path_isdir in *.
      rewrite G, C, N, T.
      apply orb_true_iff in Hq. destruct Hq as [-> | Hdir]; [reflexivity|].
      apply orb_true_iff. right. apply bool_decide_eq_true_2.
      apply D. now apply bool_decide_eq_true_1 in Hdir. }
  destruct HP as (? & ? & ? & ? & _). auto.
Qed.

Lemma complete_sequence_keeps_paths_witness :
  exists w',
    complete_sequence echo_model two_frames "out" "drive" "left" false half_done
      = Ok w' /\
    grey (files w') !! "out/0000000005.png"%string = Some [[7; 7]; [7; 7]].
Proof.
  destruct (complete_sequence echo_model two_frames "out" "drive" "left" false
              half_done) as [w'|e] eqn:E.
  - exists w'. split; [reflexivity|].
    destruct (complete_sequence_keeps_paths _ _ _ _ _ _ _ "out/0000000005.png" E)
      as (G & _); [reflexivity|].
    rewrite G. reflexivity.
  - exfalso. vm_compute in E. discriminate.
Defined.

Lemma for_each_targets (model : nd Q -> nd Q -> result (nd Q)) (ds : dataset)
    (path : string) (l : list nat) : forall w w',
  for_each (complete_item model ds path false) w l = Ok w' ->
  Forall (fun i => exists ip, img_path_of ds path i = Ok ip /\
                              os_path_exists (files w') ip = true) l.
Proof.
  induction l as [|i l IH]; intros w w' H; [constructor|].
  cbn [for_each] in H.
  destruct (complete_item model ds path false w i) as [w1|] eqn:E; [|discriminate].
  cbn [bind] in H. constructor; [|now apply (IH w1)].
  destruct (complete_item_target _ _ _ _ _ _ _ E) as (ip & Hip & Hex).
  exists ip. split; [exact Hip|].
  refine (for_each_keeps _ (fun s => os_path_exists (files s) ip = true) _ _ _ _ H Hex).
  intros s j s' Hstep Hs.
  now destruct (complete_item_keeps_path _ _ _ _ _ _ ip Hstep Hs) as (_ & _ & _ & _ & ?).
Qed.

Lemma for_each_all_skipped (model : nd Q -> nd Q -> result (nd Q)) (ds : dataset)
    (path : string) (w : world) (l : list nat) :
  Forall (fun i => exists ip, img_path_of ds path i = Ok ip /\
                              os_path_exists (files w) ip = true) l ->
  for_each (complete_item model ds path false) w l = Ok w.
Proof.
  induction 1 as [|i l (ip & Hip & Hex) _ IH]; [reflexivity|].
  cbn [for_each]. unfold complete_item at 1. rewrite Hip. cbn [bind].
  rewrite Hex. cbn [andb negb bind]. exact IH.
Qed.

Lemma make_folders_again (subfolders : list string) : forall d path d1 path1 d2,
  make_folders d path subfolders = Ok (d1, path1) ->
  dirs d1 ⊆ dirs d2 ->
  make_folders d2 path subfolders = Ok (d2, path1).
Proof.
  induction subfolders as [|sub rest IH]; intros d path d1 path1 d2 H Hsub.
  - cbn [make_folders] in *. now injection H as _ <-.
  - cbn [make_folders] in *.
    set (p1 := path_join2 path sub) in *.
    destruct (if os_path_isdir d p1 then Ok d else os_mkdir d p1)
      as [dstep|] eqn:Estep; [|discriminate].
    cbn [bind] in H.
    assert (Hin : p1 ∈ dirs dstep).
    { destruct (os_path_isdir d p1) eqn:Hdir.
      - injection Estep as <-. unfold os_path_isdir in Hdir.
        now apply bool_decide_eq_true_1 in Hdir.
      - unfold os_mkdir in Estep.
        destruct (os_path_exists d p1); [discriminate|].
        injection Estep as <-. cbn [dirs].
        apply elem_of_union_l. now apply elem_of_singleton. }
    pose proof (make_folders_result _ _ _ _ _ H) as (_ & _ & _ & _ & _ & D & _).
    assert (Hdir2 : os_path_isdir d2 p1 = true).
    { unfold os_path_isdir. apply bool_decide_eq_true_2. apply Hsub, D, Hin. }
    rewrite Hdir2. cbn [bind]. now apply (IH dstep p1 d1).
Qed.

(** X6. With [replace] off, a second run of [complete_sequence] after one
    that ran to its end changes nothing: it does not call the network and
    leaves the files as they are. *)
Theorem complete_sequence_idempotent (model : nd Q -> nd Q -> result (nd Q))
    (ds : dataset) (path_to_save subseq camera : string) (w w1 : world) :
  complete_sequence model ds path_to_save subseq camera false w = Ok w1 ->
  complete_sequence model ds path_to_save subseq camera false w1 = Ok w1.
Proof.
  unfold complete_sequence. intros H.
  destruct (make_folders (files w) _ _) as [[d path]|] eqn:Hmk; [|discriminate].
  cbn [bind] in H.
  pose proof (for_each_dirs _ _ _ _ _ _ _ H) as Hdirs. cbn [files] in Hdirs.
  rewrite (make_folders_again _ _ _ _ _ (files w1) Hmk)
    by (rewrite Hdirs; reflexivity).
  cbn [bind]. apply for_each_targets in H.
  replace {| files := files w1; calls := calls w1 |} with w1 by (now destruct w1).
  now apply for_each_all_skipped.
Qed.

Lemma complete_sequence_idempotent_witness :
  exists w1,
    complete_sequence echo_model two_frames "out" "drive" "left" false half_done
      = Ok w1 /\
    complete_sequence echo_model two_frames "out" "drive" "left" false w1 = Ok w1.
Proof.
  destruct (complete_sequence echo_model two_frames "out" "drive" "left" false
              half_done) as [w1|e] eqn:E.
  - exists w1. split; [reflexivity|].
    exact (complete_sequence_idempotent _ _ _ _ _ _ _ E).
  - exfalso. vm_compute in E. discriminate.
Defined.

(** The calls made by the loop when [replace] is on. *)
Lemma for_each_calls_replace (model : nd Q -> nd Q -> result (nd Q))
    (ds : dataset) (path : string) (l : list nat) : forall w w',
  for_each (complete_item model ds path true) w l = Ok w' ->
  exists items,
    mapM (ds_item ds) l = Ok items /\
    calls w' =
      calls w ++ map (fun it => (snd (fst (fst it)),
                                 validity_mask (snd (fst (fst it))))) items.
Proof.
  induction l as [|i l IH]; intros w w' H.
  - cbn [for_each] in H. injection H as <-. exists [].
    split; [reflexivity|]. cbn [map]. now rewrite app_nil_r.
  - cbn [for_each] in H.
    destruct (complete_item model ds path true w i) as [w1|] eqn:E; [|discriminate].
    cbn [bind] in H. apply IH in H. destruct H as (items & Hitems & Hcalls).
    apply complete_item_inv in E.
    destruct E as (ip & _ & [(_ & ? & _) | E]); [discriminate|].
    destruct E as (d & c & dp & k & po & pred & pix & _ & _ & Hi & _ & _ & _ & Hc).
    exists ((c, dp, k, po) :: items). cbn [mapM]. rewrite Hi, Hitems. cbn [bind].
    split; [reflexivity|]. rewrite Hcalls, Hc, <- app_assoc. reflexivity.
Qed.

Lemma mapM_length {A B : Type} (f : A -> result B) (l : list A) : forall r,
  mapM f l = Ok r -> List.length r = List.length l.
Proof.
  induction l as [|a l IH]; intros r H.
  - cbn [mapM] in H. now injection H as <-.
  - cbn [mapM] in H. destruct (f a); [|discriminate].
    destruct (mapM f l) as [bs|]; [|discriminate].
    cbn [bind] in H. injection H as <-. cbn [List.length]. now rewrite (IH bs).
Qed.

(** X7. With [replace] on, a run of [complete_sequence] that reaches its
    end has called the network once per item, in order, each time on the
    item's sparse depth and the mask of its positive entries. *)
Theorem complete_sequence_calls_replace (model : nd Q -> nd Q -> result (nd Q))
    (ds : dataset) (path_to_save subseq camera : string) (w w' : world) :
  complete_sequence model ds path_to_save subseq camera true w = Ok w' ->
  exists items,
    mapM (ds_item ds) (seq 0 (ds_len ds)) = Ok items /\
    List.length items = ds_len ds /\
    calls w' =
      calls w ++ map (fun it => (snd (fst (fst it)),
                                 validity_mask (snd (fst (fst it))))) items.
Proof.
  unfold complete_sequence. intros H.
  destruct (make_folders (files w) _ _) as [[d path]|]; [|discriminate].
  cbn [bind] in H. apply for_each_calls_replace in H.
  destruct H as (items & Hitems & Hcalls). exists items.
  split; [exact Hitems|]. split; [|exact Hcalls].
  rewrite (mapM_length _ _ _ Hitems). apply length_seq.
Qed.

Lemma complete_sequence_calls_replace_witness :
  exists w',
    complete_sequence echo_model two_frames "out" "drive" "left" true half_done
      = Ok w' /\
    List.length (calls w') = 2%nat.
Proof.
  destruct (complete_sequence echo_model two_frames "out" "drive" "left" true
              half_done) as [w'|e] eqn:E.
  - exists w'. split; [reflexivity|].
    destruct (complete_sequence_calls_replace _ _ _ _ _ _ _ E)
      as (items & _ & Hlen & Hcalls).
    rewrite Hcalls, length_app, length_map, Hlen. reflexivity.
  - exfalso. vm_compute in E. discriminate.
Defined.

(** ** Depth values between PNG and metres *)

Lemma encode_scale (v : Z) :
  0 <= v <= 65535 -> encode_depth (depth_scale v) = v.
Proof.
  intros Hv. unfold encode_depth.
  assert (E : (depth_scale v * 256 == inject_Z v)%Q).
  { unfold depth_scale. field. }
  assert (H0 : (0 <= inject_Z v)%Q).
  { change 0%Q with (inject_Z 0). rewrite <- Zle_Qle. lia. }
  assert (H1 : (inject_Z v < 65536)%Q).
  { change 65536%Q with (inject_Z 65536). rewrite <- Zlt_Qlt. lia. }
  rewrite astype_uint16_floor by (rewrite E; assumption).
  rewrite E. apply Qfloor_Z.
Qed.

Lemma encode_floor (q : Q) :
  (0 <= q)%Q -> (q < 256)%Q -> encode_depth q = Qfloor (q * 256).
Proof.
  intros H0 H1. unfold encode_depth. apply astype_uint16_floor; lra.
Qed.

(** X8. On depths in [0, 256) the encoding of [save_gradslam_image] is
    monotone, and the depths stored as 0, which a loader reads as invalid,
    are exactly those below 1/256 m. *)
Theorem encode_depth_monotone (q1 q2 : Q) :
  (0 <= q1)%Q -> (q1 <= q2)%Q -> (q2 < 256)%Q ->
  encode_depth q1 <= encode_depth q2 /\
  (encode_depth q1 = 0 <-> (q1 < 1 # 256)%Q).
Proof.
  intros H0 H12 H2.
  rewrite (encode_floor q1) by lra. rewrite (encode_floor q2) by lra.
  split; [apply Qfloor_resp_le; lra|].
  pose proof (Qfloor_le (q1 * 256)) as Hle.
  pose proof (Qlt_floor (q1 * 256)) as Hlt.
  rewrite inject_Z_plus in Hlt. change (inject_Z 1) with 1%Q in Hlt.
  split.
  - intros E. rewrite E in Hlt. change (inject_Z 0) with 0%Q in Hlt. lra.
  - intros Hq.
    assert (Hlo : 0 <= Qfloor (q1 * 256)).
    { change 0 with (Qfloor 0). apply Qfloor_resp_le. lra. }
    assert (Hhi : (inject_Z (Qfloor (q1 * 256)) < inject_Z 1)%Q).
    { change (inject_Z 1) with 1%Q. lra. }
    rewrite <- Zlt_Qlt in Hhi. lia.
Qed.

Lemma encode_depth_monotone_witness :
  encode_depth (1 # 2) <= encode_depth (3 # 1) /\
  (encode_depth (1 # 2) = 0 <-> (1 # 2 < 1 # 256)%Q).
Proof.
  apply (encode_depth_monotone (1 # 2) (3 # 1));
    unfold Qle, Qlt; simpl; lia.
Defined.

(** X9. A depth image without invalid pixels survives the way through
    metres: loaded by [get_depth] with [to_depth_map=True] and written back
    by [save_gradslam_image], it is stored with the pixel values it had. *)
Theorem load_then_save_round_trip (d d_out : disk)
    (self : KITTIDepthSelection) (i : Z) (gt : bool) (img_path : string)
    (depth : list (list Z)) :
  grey d !! depth_file self i gt = Some depth ->
  rectangular depth -> (2 <= nrows depth)%nat -> (2 <= ncols depth)%nat ->
  Forall (Forall (fun v => 1 <= v <= 65535)) depth ->
  (exists v, In v (concat depth) /\ 255 < v) ->
  os_path_isdir d_out img_path = false ->
  exists a d',
    get_depth d self i gt true = Ok (Metres a) /\
    save_gradslam_image d_out (expand (expand (nd_of_cube a))) img_path = Ok d' /\
    grey d' !! img_path = Some depth.
Proof.
  intros Hfile Hrect Hr Hc Hpix Hbig Hdir.
  exists (map (map (fun v => [mark_invalid (depth_scale v)])) depth).
  unfold get_depth. rewrite Hfile. cbn [of_option bind].
  rewrite (get_depth_of_guarded depth true Hrect Hbig).
  set (dm := map (map (fun v => mark_invalid (depth_scale v))) depth).
  assert (Edm : map (map (fun v => [mark_invalid (depth_scale v)])) depth
                = map (map (fun x => [x])) dm).
  { unfold dm. rewrite map_map. apply map_ext. intros row. now rewrite map_map. }
  assert (Hshape : rectangular dm /\ nrows dm = nrows depth /\ ncols dm = ncols depth).
  { assert (Hrows : nrows dm = nrows depth) by (unfold dm, nrows; apply length_map).
    assert (Hcols : ncols dm = ncols depth).
    { unfold dm. destruct depth as [|row rest]; [reflexivity|]. cbn [map ncols].
      apply length_map. }
    split; [|now split].
    unfold rectangular. rewrite Hrows, Hcols. unfold dm.
    apply (is_shape_map _ _ (ncols depth)); [|exact Hrect].
    intros row Hrow. now rewrite length_map. }
  destruct Hshape as (Hrect' & Hr' & Hc').
  assert (Hback : map (map encode_depth) dm = depth).
  { unfold dm. rewrite map_map.
    rewrite <- (map_id depth) at 2. apply map_ext_in. intros row Hrow.
    rewrite map_map. rewrite <- (map_id row) at 2. apply map_ext_in.
    intros v Hv.
    rewrite Forall_forall in Hpix. apply list_elem_of_In, Hpix in Hrow.
    rewrite Forall_forall in Hrow. apply list_elem_of_In, Hrow in Hv.
    rewrite mark_invalid_positive by lia. apply encode_scale. lia. }
  eexists. split; [reflexivity|].
  rewrite Edm. fold (depth_tensor dm). unfold save_gradslam_image.
  rewrite (gradslam_pixels_depth dm Hrect') by lia. cbn [bind].
  unfold image_save. rewrite Hdir. split; [reflexivity|].
  cbn [grey]. rewrite Hback. apply lookup_insert_eq.
Qed.

Lemma load_then_save_round_trip_witness :
  exists a d',
    get_depth dense_disk near_selection 0 true true = Ok (Metres a) /\
    save_gradslam_image empty_disk (expand (expand (nd_of_cube a))) "copy.png"
      = Ok d' /\
    grey d' !! "copy.png"%string = Some [[300; 1]; [256; 65535]].
Proof.
  apply (load_then_save_round_trip dense_disk empty_disk near_selection 0 true
           "copy.png" [[300; 1]; [256; 65535]]).
  - apply lookup_singleton_eq.
  - split; [reflexivity|]. repeat constructor.
  - cbn. lia.
  - cbn. lia.
  - repeat first [apply Forall_nil_2 | apply Forall_cons_2 | split]; lia.
  - exists 300. split; [simpl; tauto | lia].
  - reflexivity.
Defined.

(** ** get_depth: invalid pixels and the raw mode *)

Lemma nd_map_cube {A B : Type} (f : A -> B) (c : list (list (list A))) :
  nd_map f (nd_of_cube c) = nd_of_cube (map (map (map f)) c).
Proof.
  unfold nd_of_cube, nd_of_mat, nd_of_vec. cbn [nd_map]. f_equal.
  rewrite !map_map. apply map_ext. intros m. cbn [nd_map]. f_equal.
  rewrite !map_map. apply map_ext. intros v. cbn [nd_map]. f_equal.
  rewrite !map_map. reflexivity.
Qed.

Lemma mask_of_pixel (v : Z) :
  (if Qlt_le_dec 0 (mark_invalid (depth_scale v)) then 1%Q else 0%Q)
  = if 0 <? v then 1%Q else 0%Q.
Proof.
  destruct (Z.ltb_spec 0 v) as [Hpos | Hle].
  - rewrite mark_invalid_positive by lia.
    destruct (Qlt_le_dec 0 (depth_scale v)) as [_ | H]; [reflexivity|].
    unfold depth_scale, Qle in H. simpl in H. lia.
  - destruct (Qlt_le_dec 0 (mark_invalid (depth_scale v))) as [H | _];
      [|reflexivity].
    unfold mark_invalid in H.
    destruct (Qeq_bool (depth_scale v) 0); [discriminate H|].
    unfold depth_scale, Qlt in H. simpl in H. lia.
Qed.

(** X10. In the metric depth map that [get_depth] returns, a pixel stored
    as 0 holds -1, and the mask [(depths > 0)] that [complete_sequence]
    builds from such a map marks exactly the pixels stored with a positive
    value. *)
Theorem get_depth_mask (d : disk) (self : KITTIDepthSelection) (i : Z)
    (gt : bool) (depth : list (list Z)) :
  grey d !! depth_file self i gt = Some depth ->
  rectangular depth ->
  (exists v, In v (concat depth) /\ 255 < v) ->
  exists a,
    get_depth d self i gt true = Ok (Metres a) /\
    (forall (y x : nat) (row : list Z),
        depth !! y = Some row -> row !! x = Some 0 ->
        exists arow, a !! y = Some arow /\ arow !! x = Some [(-1)%Q]) /\
    validity_mask (nd_of_cube a) =
      nd_of_cube (map (map (fun v => [if 0 <? v then 1%Q else 0%Q])) depth).
Proof.
  intros Hfile Hrect Hbig. unfold get_depth. rewrite Hfile. cbn [of_option bind].
  rewrite (get_depth_of_guarded depth true Hrect Hbig).
  eexists. split; [reflexivity|]. split.
  - intros y x row Hy Hx.
    exists (map (fun v => [mark_invalid (depth_scale v)]) row). split.
    + rewrite list_lookup_fmap, Hy. reflexivity.
    + rewrite list_lookup_fmap, Hx. reflexivity.
  - unfold validity_mask. rewrite nd_map_cube. f_equal.
    rewrite map_map. apply map_ext. intros row.
    rewrite !map_map. apply map_ext. intros v. cbn [map]. f_equal.
    apply mask_of_pixel.
Qed.

Lemma get_depth_mask_witness :
  exists a,
    get_depth far_disk far_selection 7 true true = Ok (Metres a) /\
    validity_mask (nd_of_cube a) =
      nd_of_cube [[[0%Q]; [1%Q]]; [[1%Q]; [1%Q]]].
Proof.
  destruct (get_depth_mask far_disk far_selection 7 true [[0; 256]; [512; 300]])
    as (a & Ha & _ & Hmask).
  - apply lookup_singleton_eq.
  - split; [reflexivity|]. repeat constructor.
  - exists 256. split; [simpl; tauto | lia].
  - exists a. split; [exact Ha|]. rewrite Hmask. reflexivity.
Defined.

(** X11. With [to_depth_map] left at [False], as [__getitem__] calls it,
    [get_depth] returns the stored integers themselves, one per pixel, in
    an array of shape (rows, cols, 1): the values are in units of 1/256 m,
    an invalid pixel stays 0. *)
Theorem get_depth_raw (d : disk) (self : KITTIDepthSelection) (i : Z)
    (gt : bool) (depth : list (list Z)) :
  grey d !! depth_file self i gt = Some depth ->
  rectangular depth ->
  (exists v, In v (concat depth) /\ 255 < v) ->
  exists a,
    get_depth d self i gt false = Ok (RawDepth a) /\
    is_shape3 (nrows depth) (ncols depth) 1 a /\
    forall (y x : nat) (row : list Z) (v : Z),
      depth !! y = Some row -> row !! x = Some v ->
      exists arow, a !! y = Some arow /\ arow !! x = Some [v].
Proof.
  intros Hfile Hrect Hbig. unfold get_depth. rewrite Hfile. cbn [of_option bind].
  rewrite (get_depth_of_guarded depth false Hrect Hbig).
  eexists. split; [reflexivity|]. split; [now apply is_shape3_wrap|].
  intros y x row v Hy Hx.
  exists (map (fun v => [v]) row). split.
  - rewrite list_lookup_fmap, Hy. reflexivity.
  - rewrite list_lookup_fmap, Hx. reflexivity.
Qed.

Lemma get_depth_raw_witness :
  exists a,
    get_depth far_disk far_selection 7 true false = Ok (RawDepth a) /\
    is_shape3 2 2 1 a /\
    exists arow, a !! 1%nat = Some arow /\ arow !! 0%nat = Some [512].
Proof.
  destruct (get_depth_raw far_disk far_selection 7 true [[0; 256]; [512; 300]])
    as (a & Ha & Hs & Hpix).
  - apply lookup_singleton_eq.
  - split; [reflexivity|]. repeat constructor.
  - exists 256. split; [simpl; tauto | lia].
  - exists a. split; [exact Ha|]. split; [exact Hs|].
    apply (Hpix 1%nat 0%nat [512; 300] 512); reflexivity.
Defined.

(** ** get_ids and the names of the depth images *)















(** An id of eleven digits does not come back: the slice keeps its last ten
    digits only. *)
Lemma get_ids_wide_id :
  get_ids [depth_file near_selection 12345678901 true] = Ok [2345678901].
Proof. reflexivity. Qed.

(** ** gps_to_ecef: geometry and the zero origin *)

Local Open Scope R_scope.

Lemma gps_to_ecef_formula (lat lon alt : R) :
  gps_to_ecef lat lon alt =
    ((WGS84.v (WGS84.radians lat) + alt) * cos (WGS84.radians lat)
       * cos (WGS84.radians lon),
     (WGS84.v (WGS84.radians lat) + alt) * cos (WGS84.radians lat)
       * sin (WGS84.radians lon),
     alt).
Proof.
  unfold gps_to_ecef, WGS84.v, WGS84.radians, WGS84.e2, WGS84.f, WGS84.a.
  set (s := sin (lat * (PI / 180))).
  set (f := 1 / (298257223563 / 1000000000)).
  replace (1 - (1 - (1 - f) * (1 - f)) * s * s)
    with (1 - (1 - (1 - f) ^ 2) * s ^ 2) by ring.
  reflexivity.
Qed.

Lemma pole_angle : WGS84.radians 90 = PI / 2.
Proof. unfold WGS84.radians. field. Qed.

(** X13. The point [gps_to_ecef] returns lies at distance
    [(v + alt) * cos(lat)] from the polar axis, whatever the longitude; at
    the pole ([lat = 90]) it lies on the axis. *)
Theorem gps_to_ecef_axis_distance (lat lon alt : R) :
  fst (fst (gps_to_ecef lat lon alt)) ^ 2 + snd (fst (gps_to_ecef lat lon alt)) ^ 2
    = ((WGS84.v (WGS84.radians lat) + alt) * cos (WGS84.radians lat)) ^ 2 /\
  (lat = 90 ->
   fst (fst (gps_to_ecef lat lon alt)) = 0 /\
   snd (fst (gps_to_ecef lat lon alt)) = 0).
Proof.
  rewrite gps_to_ecef_formula. cbn [fst snd]. split.
  - pose proof (sin2_cos2 (WGS84.radians lon)) as H. unfold Rsqr in H.
    set (k := (WGS84.v (WGS84.radians lat) + alt) * cos (WGS84.radians lat)).
    transitivity (k ^ 2 * (sin (WGS84.radians lon) * sin (WGS84.radians lon)
                           + cos (WGS84.radians lon) * cos (WGS84.radians lon)));
      [ring | rewrite H; ring].
  - intros ->. rewrite pole_angle, cos_PI2. split; ring.
Qed.

Lemma gps_to_ecef_axis_distance_witness :
  fst (fst (gps_to_ecef 90 30 100)) = 0 /\ snd (fst (gps_to_ecef 90 30 100)) = 0.
Proof.
  apply (proj2 (gps_to_ecef_axis_distance 90 30 100)). reflexivity.
Defined.

Lemma minus_first_spec (x : list R) (x0 : R) :
  x !! 0%nat = Some x0 ->
  minus_first x = Ok (map (fun xi => xi - x0) x).
Proof. destruct x as [|a x]; [discriminate|]. now intros [= ->]. Qed.

(** X14. With [zero_origin=True] on arrays, [gps_to_ecef] shifts every
    point by the first one, which becomes (0, 0, 0). *)
Theorem gps_to_ecef_zero_origin (lat lon alt : list R) (x y z : list R)
    (x0 y0 z0 : R) :
  gps_to_ecef_arrays lat lon alt false = Ok (x, y, z) ->
  x !! 0%nat = Some x0 -> y !! 0%nat = Some y0 -> z !! 0%nat = Some z0 ->
  exists x' y' z',
    gps_to_ecef_arrays lat lon alt true = Ok (x', y', z') /\
    x' = map (fun v => v - x0) x /\ y' = map (fun v => v - y0) y /\
    z' = map (fun v => v - z0) z /\
    x' !! 0%nat = Some 0 /\ y' !! 0%nat = Some 0 /\ z' !! 0%nat = Some 0.
Proof.
  unfold gps_to_ecef_arrays. intros H Hx Hy Hz.
  destruct (negb _); [discriminate|]. injection H as <- <- <-.
  rewrite (minus_first_spec _ x0 Hx), (minus_first_spec _ y0 Hy),
    (minus_first_spec _ z0 Hz). cbn [bind].
  do 3 eexists. split; [reflexivity|].
  repeat split; try reflexivity.
  - rewrite list_lookup_fmap, Hx. cbn. f_equal. ring.
  - rewrite list_lookup_fmap, Hy. cbn. f_equal. ring.
  - rewrite list_lookup_fmap, Hz. cbn. f_equal. ring.
Qed.

(** On empty arrays the flag makes the call raise [IndexError], where the
    call without it returns them. *)
Lemma gps_to_ecef_zero_origin_empty :
  gps_to_ecef_arrays [] [] [] false = Ok ([], [], []) /\
  gps_to_ecef_arrays [] [] [] true = Raise IndexError.
Proof. split; reflexivity. Qed.

Lemma gps_to_ecef_zero_origin_witness :
  exists x' y' z',
    gps_to_ecef_arrays [0; 0] [0; 0] [3; 5] true = Ok (x', y', z') /\
    z' = [3 - 3; 5 - 3] /\ x' !! 0%nat = Some 0.
Proof.
  destruct (gps_to_ecef_zero_origin [0; 0] [0; 0] [3; 5]
              (map (fun p => fst (fst p))
                 (map (fun '(la, lo, al) => gps_to_ecef la lo al)
                    (combine (combine [0; 0] [0; 0]) [3; 5])))
              (map (fun p => snd (fst p))
                 (map (fun '(la, lo, al) => gps_to_ecef la lo al)
                    (combine (combine [0; 0] [0; 0]) [3; 5])))
              [3; 5]
              (fst (fst (gps_to_ecef 0 0 3))) (snd (fst (gps_to_ecef 0 0 3))) 3)
    as (x' & y' & z' & H & _ & _ & Hz & Hx0 & _); try reflexivity.
  exists x', y', z'. split; [exact H|]. split; [exact Hz | exact Hx0].
Defined.

(** ** get_gps_pose and get_cam_poses *)



(** X16. Without [zero_origin], [get_cam_poses] returns one pose per GPS
    record, in order: the GPS pose multiplied on the right by the
    calibration matrix, a 4x4 matrix with the determinant of that matrix. *)
Theorem get_cam_poses_per_record (oxts : list (list R)) (T : mat) :
  oxts <> [] ->
  Forall (fun g => (6 <= List.length g)%nat) oxts ->
  is_shapeb 4 4 T = true ->
  exists gps,
    mapM get_gps_pose oxts = Ok gps /\
    get_cam_poses oxts T false = Ok (map (fun p => mul p T) gps) /\
    List.length (map (fun p => mul p T) gps) = List.length oxts /\
    Forall (fun p => is_shapeb 4 4 p = true /\ det 4 p = det 4 T)
           (map (fun p => mul p T) gps).
Proof.
  intros Hne Hall HT.
  destruct (gps_poses_spec oxts Hall) as (gps & Hm & Hl & Hgps).
  exists gps. split; [exact Hm|].
  assert (Hmul : mapM (fun pose => np_matmul pose T) gps
                 = Ok (map (fun p => mul p T) gps)).
  { apply mapM_ok. eapply Forall_impl; [exact Hgps|].
    intros p [Hp _]. now apply np_matmul_44. }
  split; [|split].
  - unfold get_cam_poses. rewrite Hm. cbn [bind].
    destruct gps as [|g0 gps'].
    + destruct oxts; [congruence | discriminate].
    + rewrite Hmul. reflexivity.
  - now rewrite length_map.
  - apply Forall_map. eapply Forall_impl; [exact Hgps|].
    intros p [Hp Hd]. unfold compose. split; [now apply mul_shape|].
    rewrite (det_mul p T Hp HT), Hd. ring.
Qed.

Lemma get_cam_poses_per_record_witness :
  exists gps,
    mapM get_gps_pose two_records = Ok gps /\
    get_cam_poses two_records rig_velo_to_cam false
      = Ok (map (fun p => mul p rig_velo_to_cam) gps) /\
    List.length (map (fun p => mul p rig_velo_to_cam) gps) = 2%nat.
Proof.
  destruct (get_cam_poses_per_record two_records rig_velo_to_cam)
    as (gps & H1 & H2 & H3 & _).
  - discriminate.
  - repeat constructor.
  - reflexivity.
  - exists gps. repeat split; assumption.
Defined.

(** On an empty sequence [get_cam_poses] raises [ValueError], with or
    without [zero_origin]: the product with the calibration matrix fails
    before the first pose is looked up. *)
Lemma get_cam_poses_empty (T : mat) (zero_origin : bool) :
  get_cam_poses [] T zero_origin = Raise ValueError.
Proof. reflexivity. Qed.

(** ** load_calib_file and get_calibrations: the matrices returned *)

Lemma hstack_rows (a b top : mat) :
  hstack a b = Ok top -> List.length top = List.length a.
Proof.
  revert b top. induction a as [|ra a IH]; intros [|rb b] top H;
    cbn [hstack] in H; try discriminate.
  - now injection H as <-.
  - destruct (hstack a b) as [rest|] eqn:E; [|discriminate].
    cbn [bind] in H. injection H as <-. cbn [List.length]. f_equal.
    now apply (IH b).
Qed.

Lemma load_calib_file_bottom (d : disk) (path file : string) (m : mat) :
  load_calib_file d path file = Ok m -> nth 3 m [] = [0; 0; 0; 1].
Proof.
  unfold load_calib_file. intros H.
  repeat match type of H with
         | bind ?r _ = Ok _ =>
             let E := fresh "E" in
             destruct r eqn:E; [cbn [bind] in H | discriminate]
         end.
  match type of H with
  | (if ?c then _ else _) = _ => destruct c eqn:Hc; [|discriminate]
  end.
  injection H as <-.
  match goal with
  | E : bmat_rt ?r ?t = Ok _ |- _ => unfold bmat_rt in E;
      destruct (hstack r t) as [top|] eqn:Etop; [|discriminate];
      cbn [bind] in E; destruct (is_shapeb (nrows top) 4 top); [|discriminate];
      injection E as <-
  end.
  assert (Hlen : List.length top = 3%nat).
  { unfold is_shapeb in Hc. apply andb_true_iff in Hc. destruct Hc as [Hc _].
    apply Nat.eqb_eq in Hc. rewrite length_app in Hc. cbn [List.length] in Hc. lia. }
  destruct top as [|r1 [|r2 [|r3 [|r4 top]]]]; try discriminate. reflexivity.
Qed.

(** X17. Whatever the text, a matrix that [load_calib_file] returns is 4x4
    and has (0, 0, 0, 1) as bottom row. *)
Theorem load_calib_file_affine (d : disk) (path file : string) (m : mat) :
  load_calib_file d path file = Ok m ->
  is_shapeb 4 4 m = true /\ nth 3 m [] = [0; 0; 0; 1].
Proof.
  intros H. split; [exact (load_calib_file_shape _ _ _ _ H)|].
  exact (load_calib_file_bottom _ _ _ _ H).
Qed.

Lemma calib_sample_loads :
  load_calib_file calib_sample_disk "/kitti" "calib.txt" =
    Ok [[1; 0; 0; 1 / 2]; [0; 1; 0; -2]; [0; 0; 1; 3]; [0; 0; 0; 1]].
Proof.
  apply (load_calib_file_parses calib_sample_disk "/kitti" "calib.txt"
           ("calib_time: 25-May-2012 16:47:16" +:+ newline)
           (" 1 0 0 0 1 0 0 0 1" +:+ newline)
           " 0.5 -2 3e0"
           ("delta_f: 0.000000e+00 0.000000e+00" +:+ newline)).
  - apply lookup_singleton_eq.
  - reflexivity.
  - reflexivity.
  - reflexivity.
  - number_row_tac.
  - number_row_tac.
Qed.

Lemma load_calib_file_affine_witness :
  is_shapeb 4 4 [[1; 0; 0; 1 / 2]; [0; 1; 0; -2]; [0; 0; 1; 3]; [0; 0; 0; 1]] = true /\
  nth 3 [[1; 0; 0; 1 / 2]; [0; 1; 0; -2]; [0; 0; 1; 3]; [0; 0; 0; 1]] []
    = [0; 0; 0; 1].
Proof.
  exact (load_calib_file_affine calib_sample_disk "/kitti" "calib.txt" _
           calib_sample_loads).
Defined.

(** X18. The matrix [get_calibrations] returns acts on a 4-vector as the
    matrix of [calib_velo_to_cam.txt] followed by the matrix of
    [calib_imu_to_velo.txt]; it is 4x4 with bottom row (0, 0, 0, 1). *)
Theorem get_calibrations_action (d : disk) (path : string) (a b : mat) :
  load_calib_file d path "calib_imu_to_velo.txt" = Ok a ->
  load_calib_file d path "calib_velo_to_cam.txt" = Ok b ->
  exists T,
    get_calibrations d path = Ok T /\
    is_shapeb 4 4 T = true /\ nth 3 T [] = [0; 0; 0; 1] /\
    forall p : list R, List.length p = 4%nat ->
      apply T p = apply a (apply b p).
Proof.
  intros Ha Hb.
  pose proof (load_calib_file_shape _ _ _ _ Ha) as Sa.
  pose proof (load_calib_file_shape _ _ _ _ Hb) as Sb.
  pose proof (load_calib_file_bottom _ _ _ _ Ha) as Ba.
  pose proof (load_calib_file_bottom _ _ _ _ Hb) as Bb.
  exists (mul a b).
  split; [now apply get_calibrations_product|].
  split; [now apply mul_shape|].
  clear Ha Hb. entries_of a Sa. entries_of b Sb.
  cbn [nth] in Ba, Bb. injection Ba as -> -> -> ->. injection Bb as -> -> -> ->.
  split.
  - cbv - [Rplus Rmult Ropp Rminus Rinv Rdiv IZR].
    repeat match goal with
           | |- _ :: _ = _ :: _ => apply f_equal2
           | |- [] = [] => reflexivity
           end; ring.
  - intros p Hp.
    destruct p as [|p0 [|p1 [|p2 [|p3 [|p4 p]]]]]; try discriminate.
    cbv - [Rplus Rmult Ropp Rminus Rinv Rdiv IZR].
    repeat match goal with
           | |- _ :: _ = _ :: _ => apply f_equal2
           | |- [] = [] => reflexivity
           end; ring.
Qed.

Lemma rig_loads :
  load_calib_file rig_disk "/kitti" "calib_imu_to_velo.txt" = Ok rig_imu_to_velo /\
  load_calib_file rig_disk "/kitti" "calib_velo_to_cam.txt" = Ok rig_velo_to_cam.
Proof.
  split.
  - apply (load_calib_file_parses rig_disk "/kitti" "calib_imu_to_velo.txt"
             "" (" 0 -1 0 1 0 0 0 0 1" +:+ newline) " 0 0 0" "").
    + apply lookup_insert_eq.
    + reflexivity.
    + reflexivity.
    + reflexivity.
    + number_row_tac.
    + number_row_tac.
  - apply (load_calib_file_parses rig_disk "/kitti" "calib_velo_to_cam.txt"
             "" (" 1 0 0 0 1 0 0 0 1" +:+ newline) " 1 0 0" "").
    + cbn [texts rig_disk]. rewrite lookup_insert_ne by discriminate.
      apply lookup_singleton_eq.
    + reflexivity.
    + reflexivity.
    + reflexivity.
    + number_row_tac.
    + number_row_tac.
Qed.

Lemma get_calibrations_action_witness :
  exists T,
    get_calibrations rig_disk "/kitti" = Ok T /\
    apply T [0; 0; 0; 1] = apply rig_imu_to_velo (apply rig_velo_to_cam [0; 0; 0; 1]).
Proof.
  destruct (get_calibrations_action rig_disk "/kitti" rig_imu_to_velo rig_velo_to_cam
              (proj1 rig_loads) (proj2 rig_loads)) as (T & HT & _ & _ & Hact).
  exists T. split; [exact HT|]. now apply Hact.
Defined.

(** ** KITTIRawPoses: iteration *)

Local Open Scope nat_scope.

Lemma mapM_app_ok {A B : Type} (f : A -> result B) (l1 l2 : list A) (r1 : list B) :
  mapM f l1 = Ok r1 ->
  mapM f (l1 ++ l2) = (let* r2 := mapM f l2 in Ok (r1 ++ r2)).
Proof.
  revert r1. induction l1 as [|a l1 IH]; intros r1 H; cbn [mapM app] in *.
  - injection H as <-. destruct (mapM f l2); reflexivity.
  - destruct (f a) as [b|e]; [|discriminate]. cbn [bind] in *.
    destruct (mapM f l1) as [bs|e]; [|discriminate]. cbn [bind] in H.
    injection H as <-. rewrite (IH bs eq_refl).
    destruct (mapM f l2); reflexivity.
Qed.

Lemma mapM_lookup {A B : Type} (f : A -> result B) (l : list A) : forall r k x,
  mapM f l = Ok r -> l !! k = Some x ->
  exists y, r !! k = Some y /\ f x = Ok y.
Proof.
  induction l as [|a l IH]; intros r k x H Hk; [destruct k; discriminate|].
  cbn [mapM] in H. destruct (f a) as [b|e] eqn:Ea; [|discriminate].
  destruct (mapM f l) as [bs|e]; [|discriminate]. cbn [bind] in H.
  injection H as <-. destruct k as [|k].
  - injection Hk as <-. exists b. now split.
  - exact (IH bs k x eq_refl Hk).
Qed.

Lemma getitem_in_range (self : KITTIRawPoses) (i : nat) :
  i < KITTIRawPoses_len self ->
  KITTIRawPoses_getitem self (Z.of_nat i) = of_option IndexError (raw_poses self !! i).
Proof.
  intros Hi. unfold KITTIRawPoses_getitem, KITTIRawPoses_len in *.
  replace ((0 <=? Z.of_nat i)%Z && (Z.of_nat i <? Z.of_nat (List.length (raw_ts self)))%Z)
    with true.
  - cbn [negb]. now rewrite Nat2Z.id.
  - symmetry. apply andb_true_iff. split; [apply Z.leb_le|apply Z.ltb_lt]; lia.
Qed.

Lemma iter_prefix (self : KITTIRawPoses) : forall n a,
  a + n <= KITTIRawPoses_len self -> a + n <= List.length (raw_poses self) ->
  mapM (fun i => KITTIRawPoses_getitem self (Z.of_nat i)) (seq a n)
    = Ok (firstn n (skipn a (raw_poses self))).
Proof.
  induction n as [|n IH]; intros a Hts Hps.
  - cbn [seq mapM]. now rewrite firstn_O.
  - cbn [seq mapM]. rewrite getitem_in_range by lia.
    destruct (raw_poses self !! a) as [p|] eqn:Ea.
    + cbn [of_option bind]. rewrite (IH (S a)) by lia. cbn [bind].
      f_equal. apply lookup_lt_Some in Ea as Hlt.
      rewrite (drop_S _ _ _ Ea). reflexivity.
    + apply lookup_ge_None in Ea. lia.
Qed.

(** X19. When there are at least as many poses as timestamps, iterating a
    [KITTIRawPoses] yields the first [len(self)] poses, in order, and raises
    nothing. *)
Theorem KITTIRawPoses_iter_yields (self : KITTIRawPoses) :
  KITTIRawPoses_len self <= List.length (raw_poses self) ->
  KITTIRawPoses_iter self = Ok (firstn (KITTIRawPoses_len self) (raw_poses self)).
Proof.
  intros H. unfold KITTIRawPoses_iter.
  now rewrite (iter_prefix self (KITTIRawPoses_len self) 0) by lia.
Qed.

Lemma KITTIRawPoses_iter_yields_witness :
  KITTIRawPoses_iter three_poses = Ok [[[1]]; [[2]]]%R.
Proof.
  apply (KITTIRawPoses_iter_yields three_poses). cbn. lia.
Defined.

(** X20. When there are fewer poses than timestamps, iterating a
    [KITTIRawPoses] to the end raises [IndexError]. *)
Theorem KITTIRawPoses_iter_short (self : KITTIRawPoses) :
  List.length (raw_poses self) < KITTIRawPoses_len self ->
  KITTIRawPoses_iter self = Raise IndexError.
Proof.
  intros H. unfold KITTIRawPoses_iter.
  set (m := List.length (raw_poses self)) in *.
  replace (KITTIRawPoses_len self) with (m + S (KITTIRawPoses_len self - S m)) by lia.
  rewrite seq_app.
  rewrite (mapM_app_ok _ _ _ _ (iter_prefix self m 0 ltac:(lia) ltac:(fold m; lia))).
  cbn [seq mapM Nat.add]. rewrite getitem_in_range by lia.
  rewrite (proj2 (lookup_ge_None (raw_poses self) m)) by (fold m; lia).
  reflexivity.
Qed.

Lemma KITTIRawPoses_iter_short_witness :
  KITTIRawPoses_iter
    {| raw_path := "/kitti_raw"; raw_subseq := "drive"; gps2cam_transform := eye 4;
       raw_poses := [eye 4]; raw_ts := [0; 1]%R |} = Raise IndexError.
Proof.
  apply KITTIRawPoses_iter_short. cbn. lia.
Defined.

(** ** Dataset.__init__: the poses of the depth frames *)

Lemma np_take_nonneg {A : Type} (a : list A) (i : Z) (x : A) :
  (0 <= i)%Z -> np_take a i = Ok x -> a !! Z.to_nat i = Some x.
Proof.
  intros Hi. unfold np_take.
  destruct ((- Z.of_nat (List.length a) <=? i)%Z && (i <? Z.of_nat (List.length a))%Z);
    [|discriminate].
  replace (i <? 0)%Z with false by (symmetry; apply Z.ltb_ge; lia).
  destruct (a !! Z.to_nat i); [|discriminate]. cbn [of_option]. congruence.
Qed.

(** X21. When [Dataset.__init__] can pick its poses, it holds one pose per
    depth frame, and the pose at the place of a frame id that is not
    negative and below [len(ds_poses)] is the one [ds_poses[id]] returns. *)
Theorem Dataset_poses_aligned (self : Dataset) (ps : list mat) :
  Dataset_poses self = Ok ps ->
  List.length ps = Dataset_len self /\
  forall (k : nat) (i : Z),
    Dataset_ids self !! k = Some i ->
    (0 <= i < Z.of_nat (KITTIRawPoses_len (ds_poses self)))%Z ->
    exists p, ps !! k = Some p /\ KITTIRawPoses_getitem (ds_poses self) i = Ok p.
Proof.
  intros H. split; [exact (mapM_length _ _ _ H)|].
  intros k i Hk Hi.
  destruct (mapM_lookup _ _ _ _ _ H Hk) as (p & Hp & Hget).
  exists p. split; [exact Hp|].
  apply np_take_nonneg in Hget; [|lia].
  rewrite <- (Z2Nat.id i) by lia.
  rewrite getitem_in_range by lia. now rewrite Hget.
Qed.

Lemma Dataset_poses_aligned_witness :
  exists ps,
    Dataset_poses sparse_frames = Ok ps /\
    List.length ps = 2 /\
    exists p, ps !! 0 = Some p /\ KITTIRawPoses_getitem three_poses 1 = Ok p.
Proof.
  exists [[[2]]; [[1]]]%R.
  assert (H : Dataset_poses sparse_frames = Ok [[[2]]; [[1]]]%R) by reflexivity.
  destruct (Dataset_poses_aligned sparse_frames _ H) as [Hlen Hall].
  split; [exact H|]. split; [exact Hlen|].
  apply (Hall 0 1%Z); [reflexivity|cbn; lia].
Defined.

(** ** get_timestamps *)

Section TimestampFacts.
Local Open Scope R_scope.

Variable float : string -> result R.
Variable strptime_timestamp : string -> result R.
Variable genfromtxt_str : string -> result (list ts_entry).

Lemma zero_shift (ts : list R) :
  mapM (fun t => let* t0 := of_option IndexError (ts !! 0%nat) in Ok (t - t0)) ts
    = Ok (map (fun t => t - hd 0 ts) ts).
Proof.
  destruct ts as [|t0 ts]; [reflexivity|].
  apply mapM_ok. apply Forall_forall. intros t _. reflexivity.
Qed.

(** X22. With [zero_origin] set, [get_timestamps] returns the stamps it
    returns without it, each less the first one; an empty table gives the
    empty list and no error. *)
Theorem get_timestamps_zero_origin (path subseq sensor : string) (ts : list R) :
  get_timestamps float strptime_timestamp genfromtxt_str path subseq sensor false
    = Ok ts ->
  get_timestamps float strptime_timestamp genfromtxt_str path subseq sensor true
    = Ok (map (fun t => t - hd 0 ts) ts).
Proof.
  unfold get_timestamps.
  destruct (negb (String.eqb sensor "gps" || String.eqb sensor "lidar"));
    [discriminate|].
  destruct (if String.eqb sensor "gps" then Ok "oxts"%string
            else if String.eqb sensor "lidar" then Ok "velodyne_points"%string
                 else Raise ValueError) as [folder|e]; [|discriminate].
  cbn [bind].
  destruct (genfromtxt_str _) as [entries|e]; [|discriminate]. cbn [bind].
  destruct (mapM _ entries) as [stamps|e]; [|discriminate]. cbn [bind].
  intros [= ->]. apply zero_shift.
Qed.

(** X23. [get_timestamps] returns only for the sensors [gps] and [lidar];
    it then has read [timestamps.txt] in the folder [oxts] or
    [velodyne_points] of the drive, and returns one stamp per entry. *)
Theorem get_timestamps_reads (path subseq sensor : string) (zero_origin : bool)
    (ts : list R) :
  get_timestamps float strptime_timestamp genfromtxt_str path subseq sensor zero_origin
    = Ok ts ->
  exists (folder : string) (entries : list ts_entry),
    (sensor = "gps"%string /\ folder = "oxts"%string \/
     sensor = "lidar"%string /\ folder = "velodyne_points"%string) /\
    genfromtxt_str (path_join path [subseq; folder; "timestamps.txt"%string])
      = Ok entries /\
    List.length ts = List.length entries.
Proof.
  unfold get_timestamps.
  destruct (String.eqb sensor "gps") eqn:Eg;
    [|destruct (String.eqb sensor "lidar") eqn:El]; cbn [orb negb bind];
    [apply String.eqb_eq in Eg | apply String.eqb_eq in El | discriminate].
  all: match goal with
       | |- context [genfromtxt_str ?f] =>
           destruct (genfromtxt_str f) as [entries|e] eqn:Eread; [|discriminate]
       end; cbn [bind];
       destruct (mapM _ entries) as [stamps|e] eqn:Est; [|discriminate]; cbn [bind];
       pose proof (mapM_length _ _ _ Est) as Hlen;
       intros H;
       assert (Hts : List.length ts = List.length entries)
         by (destruct zero_origin;
             [rewrite zero_shift in H; injection H as <-; now rewrite length_map
             |injection H as <-; exact Hlen]).
  - exists "oxts"%string, entries. split; [left; now split|]. now split.
  - exists "velodyne_points"%string, entries. split; [right; now split|]. now split.
Qed.

Lemma split_one_char (c : ascii) :
  c <> "."%char -> Py.split "."%char (String c EmptyString) = [String c EmptyString].
Proof.
  intros Hc. unfold Py.split. cbn [Py.split_from].
  destruct (Ascii.eqb c ".") eqn:E; [apply Ascii.eqb_eq in E; contradiction|].
  reflexivity.
Qed.

(** X24. When the table is read as a one-dimensional array (as for a file
    of a single line), whose first string has a second character other than
    a dot, [get_timestamps] raises [ValueError] for both sensors. *)
Theorem get_timestamps_one_dimensional (path subseq sensor : string)
    (zero_origin : bool) (s : string) (rest : list ts_entry) (c : ascii) :
  sensor = "gps"%string \/ sensor = "lidar"%string ->
  genfromtxt_str
    (path_join path [subseq;
                     if String.eqb sensor "gps" then "oxts"%string
                     else "velodyne_points"%string;
                     "timestamps.txt"%string]) = Ok (Token s :: rest) ->
  String.get 1 s = Some c -> c <> "."%char ->
  get_timestamps float strptime_timestamp genfromtxt_str path subseq sensor zero_origin
    = Raise ValueError.
Proof.
  intros Hs Hread Hc Hdot. unfold get_timestamps.
  assert (Hstamp : mapM (stamp_of float strptime_timestamp) (Token s :: rest)
                   = Raise ValueError).
  { cbn [mapM]. unfold stamp_of. cbn [entry_at]. rewrite Hc.
    destruct s as [|c0 s']; [discriminate|]. cbn [String.get bind].
    rewrite (split_one_char c Hdot). reflexivity. }
  destruct Hs as [-> | ->]; cbn [String.eqb Ascii.eqb Bool.eqb orb negb bind] in *;
    rewrite Hread; cbn [bind]; rewrite Hstamp; reflexivity.
Qed.

End TimestampFacts.

Lemma get_timestamps_zero_origin_witness :
  exists ts : list R,
    get_timestamps sample_float sample_clock (fun _ => Ok two_lines)
      "/kitti_raw" "drive" "gps" false = Ok ts /\
    get_timestamps sample_float sample_clock (fun _ => Ok two_lines)
      "/kitti_raw" "drive" "gps" true = Ok (map (fun t => (t - hd 0 ts)%R) ts).
Proof.
  destruct (get_timestamps sample_float sample_clock (fun _ => Ok two_lines)
              "/kitti_raw" "drive" "gps" false) as [ts|e] eqn:E.
  - exists ts. split; [reflexivity|].
    exact (get_timestamps_zero_origin sample_float sample_clock
             (fun _ => Ok two_lines) "/kitti_raw" "drive" "gps" ts E).
  - exfalso. vm_compute in E. discriminate.
Defined.

Lemma get_timestamps_reads_witness :
  exists (ts : list R) (folder : string) (entries : list ts_entry),
    get_timestamps sample_float sample_clock (fun _ => Ok two_lines)
      "/kitti_raw" "drive" "lidar" true = Ok ts /\
    (folder = "oxts"%string \/ folder = "velodyne_points"%string) /\
    List.length ts = List.length entries.
Proof.
  destruct (get_timestamps sample_float sample_clock (fun _ => Ok two_lines)
              "/kitti_raw" "drive" "lidar" true) as [ts|e] eqn:E.
  - destruct (get_timestamps_reads sample_float sample_clock
                (fun _ => Ok two_lines) "/kitti_raw" "drive" "lidar" true ts E)
      as (folder & entries & Hf & _ & Hlen).
    exists ts, folder, entries. split; [reflexivity|]. split; [|exact Hlen].
    destruct Hf as [[_ ->]|[_ ->]]; [now left|now right].
  - exfalso. vm_compute in E. discriminate.
Defined.

Lemma get_timestamps_one_dimensional_witness :
  get_timestamps sample_float sample_clock (fun _ => Ok one_line)
    "/kitti_raw" "drive" "gps" false = Raise ValueError.
Proof.
  apply (get_timestamps_one_dimensional sample_float sample_clock
           (fun _ => Ok one_line) "/kitti_raw" "drive" "gps" false
           "2011-09-26" [Token "13:02:25.5"] "0"%char).
  - now left.
  - reflexivity.
  - reflexivity.
  - discriminate.
Defined.
